(** * BIDS path validator (bids/layout/bids_validator.py)

    A shallow embedding of [BIDSValidator] together with the fragment of
    Python's [re] module that its patterns use.  Patterns are kept as the
    strings the source passes to [re.compile]; they are parsed by
    [re_compile] and run by a backtracking matcher that enumerates the
    successes in the priority order of Python's engine. *)

From Stdlib Require Import String Ascii List Bool Arith Lia Permutation.
Import ListNotations.
Open Scope list_scope.
Open Scope string_scope.

Set Implicit Arguments.

(** ** Exceptions and results *)

Inductive exn : Type :=
| ReError (msg : string)      (* re.error *)
| IndexError
| TypeError
| Unsupported (msg : string). (* pattern syntax outside the modelled fragment *)

Inductive result (A : Type) : Type :=
| Ok (a : A)
| Raise (e : exn).

Arguments Ok {A} a.
Arguments Raise {A} e.

Definition rbind {A B} (x : result A) (f : A -> result B) : result B :=
  match x with
  | Ok a => f a
  | Raise e => Raise e
  end.

(** ** Python string helpers *)

Definition newline : ascii := ascii_of_nat 10.

(** [s[1:]] *)
Definition str_tail (s : string) : string :=
  match s with
  | "" => ""
  | String _ t => t
  end.

(** [not s] on a str *)
Definition str_is_empty (s : string) : bool :=
  match s with
  | "" => true
  | String _ _ => false
  end.

(** [s[i]] on a str *)
Definition str_getitem (s : string) (i : nat) : result string :=
  match String.get i s with
  | Some a => Ok (String a "")
  | None => Raise IndexError
  end.

(** [v] is a prefix of [s]: what is left of [s] after it *)
Fixpoint strip_prefix (v s : string) : option string :=
  match v with
  | "" => Some s
  | String a v' =>
      match s with
      | String b s' => if Ascii.eqb a b then strip_prefix v' s' else None
      | "" => None
      end
  end.

(** ** Regular expressions: the fragment of [re] the validator uses *)

Module Re.

(** One-character matchers. *)
Inductive cset : Type :=
| CLit (c : ascii)                       (* a literal character *)
| CDot                                   (* [.]: anything but a newline *)
| CClass (items : list (ascii * ascii)). (* [[a-zA-Z0-9]]: ranges, inclusive *)

Definition in_range (a : ascii) (it : ascii * ascii) : bool :=
  ((nat_of_ascii (fst it) <=? nat_of_ascii a) &&
   (nat_of_ascii a <=? nat_of_ascii (snd it)))%nat.

Definition cset_mem (cs : cset) (a : ascii) : bool :=
  match cs with
  | CLit c => Ascii.eqb a c
  | CDot => negb (Ascii.eqb a newline)
  | CClass items => existsb (in_range a) items
  end.

Inductive regex : Type :=
| REmpty
| RChar (cs : cset)
| RRepeat (min : nat) (cs : cset)  (* greedy [cs*] (min 0) and [cs+] (min 1) *)
| RBol                             (* [^] *)
| REol                             (* [$] *)
| RCat (r1 r2 : regex)
| RAlt (r1 r2 : regex)
| ROpt (r : regex)                 (* greedy [r?] *)
| RGroup (n : nat) (r : regex)     (* capturing group number n *)
| RBackref (n : nat).              (* [\n] *)

Record pattern : Type := { rx : regex; ngroups : nat }.

(** *** Parsing a pattern string

    Recursive descent after sre_parse: [parse_sub] reads alternatives,
    [parse_seq] a sequence of items up to [|], [)] or the end, [parse_item]
    one atom and its quantifier.  [ng] counts the capturing groups opened so
    far; groups are numbered by their opening parenthesis. *)

Definition is_digit (a : ascii) : bool :=
  ((48 <=? nat_of_ascii a) && (nat_of_ascii a <=? 57))%nat.

Definition is_letter (a : ascii) : bool :=
  (((65 <=? nat_of_ascii a) && (nat_of_ascii a <=? 90)) ||
   ((97 <=? nat_of_ascii a) && (nat_of_ascii a <=? 122)))%nat.

Definition digit_val (a : ascii) : nat := nat_of_ascii a - 48.

(** The items of a character class, after the opening bracket. *)
Fixpoint parse_class (fuel : nat) (s : string) (acc : list (ascii * ascii))
  : result (list (ascii * ascii) * string) :=
  match fuel with
  | 0 => Raise (Unsupported "fuel")
  | S fuel' =>
      match s with
      | "" => Raise (ReError "unterminated character set")
      | String "]" s' =>
          match acc with
          | [] => Raise (Unsupported "] as first member of a set")
          | _ => Ok (rev acc, s')
          end
      | String "\" _ => Raise (Unsupported "escape in a set")
      | String "^" _ => Raise (Unsupported "negated or caret in a set")
      | String lo (String "-" (String "]" s')) =>
          Ok (rev (("-"%char, "-"%char) :: (lo, lo) :: acc), s')
      | String lo (String "-" (String hi s')) =>
          if (nat_of_ascii hi <? nat_of_ascii lo)%nat
          then Raise (ReError "bad character range")
          else parse_class fuel' s' ((lo, hi) :: acc)
      | String c s' => parse_class fuel' s' ((c, c) :: acc)
      end
  end.

(** The quantifier that may follow an atom. *)
Definition parse_quant (atom : regex) (s : string) : result (regex * string) :=
  let no_second (r : regex) (s' : string) : result (regex * string) :=
    match s' with
    | String "?" _ => Raise (Unsupported "lazy quantifier")
    | String "+" _ => Raise (Unsupported "possessive quantifier")
    | String "*" _ => Raise (ReError "multiple repeat")
    | String "{" _ => Raise (Unsupported "counted repeat")
    | _ => Ok (r, s')
    end in
  match s with
  | String "?" s' => no_second (ROpt atom) s'
  | String "+" s' =>
      match atom with
      | RChar cs => no_second (RRepeat 1 cs) s'
      | _ => Raise (Unsupported "+ after a group")
      end
  | String "*" s' =>
      match atom with
      | RChar cs => no_second (RRepeat 0 cs) s'
      | _ => Raise (Unsupported "* after a group")
      end
  | String "{" _ => Raise (Unsupported "counted repeat")
  | _ => Ok (atom, s)
  end.

Fixpoint parse_sub (fuel : nat) (s : string) (ng : nat)
  : result (regex * string * nat) :=
  match fuel with
  | 0 => Raise (Unsupported "fuel")
  | S fuel' =>
      rbind (parse_seq fuel' s ng) (fun '(r1, s1, ng1) =>
      match s1 with
      | String "|" s2 =>
          rbind (parse_sub fuel' s2 ng1) (fun '(r2, s3, ng2) =>
          Ok (RAlt r1 r2, s3, ng2))
      | _ => Ok (r1, s1, ng1)
      end)
  end

with parse_seq (fuel : nat) (s : string) (ng : nat)
  : result (regex * string * nat) :=
  match fuel with
  | 0 => Raise (Unsupported "fuel")
  | S fuel' =>
      match s with
      | "" => Ok (REmpty, s, ng)
      | String "|" _ => Ok (REmpty, s, ng)
      | String ")" _ => Ok (REmpty, s, ng)
      | _ =>
          rbind (parse_item fuel' s ng) (fun '(r1, s1, ng1) =>
          rbind (parse_seq fuel' s1 ng1) (fun '(r2, s2, ng2) =>
          Ok (RCat r1 r2, s2, ng2)))
      end
  end

with parse_item (fuel : nat) (s : string) (ng : nat)
  : result (regex * string * nat) :=
  match fuel with
  | 0 => Raise (Unsupported "fuel")
  | S fuel' =>
      let quant (atom : regex) (s' : string) (ng' : nat) :=
        rbind (parse_quant atom s') (fun '(r, s'') => Ok (r, s'', ng')) in
      let close (mk : regex -> regex) (body : result (regex * string * nat)) :=
        rbind body (fun '(r, s1, ng1) =>
        match s1 with
        | String ")" s2 => quant (mk r) s2 ng1
        | _ => Raise (ReError "missing ), unterminated subpattern")
        end) in
      match s with
      | "" => Raise (Unsupported "empty item")
      | String "(" (String "?" (String ":" s')) =>
          close (fun r => r) (parse_sub fuel' s' ng)
      | String "(" (String "?" _) => Raise (Unsupported "group extension")
      | String "(" s' =>
          close (RGroup (S ng)) (parse_sub fuel' s' (S ng))
      | String "[" s' =>
          rbind (parse_class (String.length s' + 1) s' []) (fun '(items, s1) =>
          quant (RChar (CClass items)) s1 ng)
      | String "\" "" => Raise (ReError "bad escape (end of pattern)")
      | String "\" (String c s') =>
          if is_digit c then
            match s' with
            | String d _ =>
                if is_digit d then Raise (Unsupported "two-digit escape")
                else if (digit_val c =? 0)%nat then Raise (Unsupported "octal escape")
                else if (ng <? digit_val c)%nat
                then Raise (ReError "invalid group reference")
                else quant (RBackref (digit_val c)) s' ng
            | "" =>
                if (digit_val c =? 0)%nat then Raise (Unsupported "octal escape")
                else if (ng <? digit_val c)%nat
                then Raise (ReError "invalid group reference")
                else quant (RBackref (digit_val c)) s' ng
            end
          else if is_letter c then Raise (Unsupported "letter escape")
          else quant (RChar (CLit c)) s' ng
      | String "." s' => quant (RChar CDot) s' ng
      | String "^" s' => quant RBol s' ng
      | String "$" s' => quant REol s' ng
      | String "*" _ => Raise (ReError "nothing to repeat")
      | String "+" _ => Raise (ReError "nothing to repeat")
      | String "?" _ => Raise (ReError "nothing to repeat")
      | String "{" _ => Raise (Unsupported "brace")
      | String c s' => quant (RChar (CLit c)) s' ng
      end
  end.

(** [re.compile(pat)] *)
Definition compile (pat : string) : result pattern :=
  match parse_sub (4 * String.length pat + 8) pat 0 with
  | Ok (r, "", ng) => Ok {| rx := r; ngroups := ng |}
  | Ok (_, _, _) => Raise (ReError "unbalanced parenthesis")
  | Raise e => Raise e
  end.

(** *** Matching

    The matcher state: the absolute position, the text still to read and the
    groups captured so far (latest binding first). *)

Record mstate : Type := MState {
  pos : nat;
  rest : string;
  caps : list (nat * string)
}.

Fixpoint cap_lookup (n : nat) (cs : list (nat * string)) : option string :=
  match cs with
  | [] => None
  | (m, v) :: cs' => if (m =? n)%nat then Some v else cap_lookup n cs'
  end.

Definition set_cap (n : nat) (v : string) (st : mstate) : mstate :=
  MState (pos st) (rest st) ((n, v) :: caps st).

(** All the ways a greedy repetition of [cs] can read a prefix of [s]:
    (text read, text left), the longest first. *)
Fixpoint rep_splits (cs : cset) (s : string) : list (string * string) :=
  match s with
  | "" => [("", "")]
  | String a s' =>
      if cset_mem cs a
      then map (fun cr => (String a (fst cr), snd cr)) (rep_splits cs s')
             ++ [("", s)]
      else [("", s)]
  end.

(** [mt r st]: every way [r] matches at [st], as (text read, state after),
    in the order a backtracking engine tries them.  The head of the list for
    a whole pattern is the match Python reports. *)
Fixpoint mt (r : regex) (st : mstate) : list (string * mstate) :=
  match r with
  | REmpty => [("", st)]
  | RChar cs =>
      match rest st with
      | String a s' =>
          if cset_mem cs a
          then [(String a "", MState (S (pos st)) s' (caps st))]
          else []
      | "" => []
      end
  | RRepeat min cs =>
      map (fun cr => (fst cr,
                      MState (pos st + String.length (fst cr)) (snd cr) (caps st)))
          (filter (fun cr => (min <=? String.length (fst cr))%nat)
                  (rep_splits cs (rest st)))
  | RBol => if (pos st =? 0)%nat then [("", st)] else []
  | REol =>
      match rest st with
      | "" => [("", st)]
      | String a "" => if Ascii.eqb a newline then [("", st)] else []
      | _ => []
      end
  | RCat r1 r2 =>
      flat_map (fun m1 =>
                  map (fun m2 => (fst m1 ++ fst m2, snd m2)) (mt r2 (snd m1)))
               (mt r1 st)
  | RAlt r1 r2 => mt r1 st ++ mt r2 st
  | ROpt r' => mt r' st ++ [("", st)]
  | RGroup n r' => map (fun m => (fst m, set_cap n (fst m) (snd m))) (mt r' st)
  | RBackref n =>
      match cap_lookup n (caps st) with
      | Some v =>
          match strip_prefix v (rest st) with
          | Some s' => [(v, MState (pos st + String.length v) s' (caps st))]
          | None => []
          end
      | None => []
      end
  end.

(** What [findall] yields for one match: the whole match when the pattern has
    no group, the group when it has one, a tuple of all the groups otherwise;
    a group that took no part in the match reads as the empty string. *)
Inductive item : Type :=
| IStr (s : string)
| ITuple (t : list string).

Definition group_text (cs : list (nat * string)) (n : nat) : string :=
  match cap_lookup n cs with
  | Some v => v
  | None => ""
  end.

Definition item_of (p : pattern) (m : string * mstate) : item :=
  match ngroups p with
  | 0 => IStr (fst m)
  | 1 => IStr (group_text (caps (snd m)) 1)
  | n => ITuple (map (group_text (caps (snd m))) (seq 1 n))
  end.

(** The matches from position [i] on, left to right, not overlapping. *)
Fixpoint scan (fuel : nat) (p : pattern) (i : nat) (s : string)
  : list (string * mstate) :=
  match fuel with
  | 0 => []
  | S fuel' =>
      let step := match s with
                  | String _ s' => scan fuel' p (S i) s'
                  | "" => []
                  end in
      match mt (rx p) (MState i s []) with
      | m :: _ =>
          m :: (if str_is_empty (fst m) then step
                else scan fuel' p (pos (snd m)) (rest (snd m)))
      | [] => step
      end
  end.

Definition matches (p : pattern) (s : string) : list (string * mstate) :=
  scan (S (String.length s)) p 0 s.

(** [p.findall(s)] *)
Definition findall (p : pattern) (s : string) : list item :=
  map (item_of p) (matches p s).

(** [p.search(s)]: [None] when there is no match *)
Definition search (p : pattern) (s : string) : option (string * mstate) :=
  hd_error (matches p s).

End Re.

Import Re.

(** ** The validator object and its methods

    A method runs on [self] and either returns a value or raises; it hands
    back the object as it leaves it.  The source writes its patterns as
    ordinary (not raw) string literals, so its [\\/] is the two characters
    [\/] of the pattern, which is what the strings below hold. *)

Record BIDSValidator : Type := {
  anat_suffixes : list string;
  index_associated : bool
}.

Definition M (A : Type) : Type := BIDSValidator -> result A * BIDSValidator.

Definition ret {A} (a : A) : M A := fun self => (Ok a, self).

Definition raise {A} (e : exn) : M A := fun self => (Raise e, self).

Definition bind {A B} (m : M A) (f : A -> M B) : M B :=
  fun self =>
    match m self with
    | (Ok a, self') => f a self'
    | (Raise e, self') => (Raise e, self')
    end.

Definition lift {A} (r : result A) : M A := fun self => (r, self).

(** [self.attr] *)
Definition attr {A} (f : BIDSValidator -> A) : M A :=
  fun self => (Ok (f self), self).

Notation "x <- m ;; k" := (bind m (fun x => k))
  (at level 61, m at next level, right associativity).

Definition re_compile (pat : string) : M pattern := lift (compile pat).

(** [BIDSValidator(index_associated)]: the object [__init__] builds *)
Definition init (index_associated : bool) : BIDSValidator :=
  {| anat_suffixes := ["T1w"; "T2w"; "T1map"; "T2map";
                       "T1rho"; "FLAIR"; "PD"; "PDT2";
                       "inplaneT1"; "inplaneT2"; "angio";
                       "defacemask"; "SWImagandphase"];
     index_associated := index_associated |}.

(** [BIDSValidator()]: [index_associated] defaults to [True] *)
Definition default_validator : BIDSValidator := init true.

(** [False if m is None else True] *)
Definition found {A} (m : option A) : bool :=
  match m with
  | None => false
  | Some _ => true
  end.

(** [t[i]] on what [findall] yields *)
Definition item_getitem (m : item) (i : nat) : result string :=
  match m with
  | IStr s => str_getitem s i
  | ITuple t =>
      match nth_error t i with
      | Some v => Ok v
      | None => Raise IndexError
      end
  end.

(** truth value of what [findall] yields *)
Definition item_truthy (m : item) : bool :=
  match m with
  | IStr s => negb (str_is_empty s)
  | ITuple t => match t with [] => false | _ => true end
  end.

Definition conditional_match (expression : pattern) (path : string) : M bool :=
  let match_ := findall expression path in
  match match_ with
  | [] => ret false
  | m :: _ =>
      (* adapted from JS code and JS does not support conditional groups *)
      if item_truthy m then
        m1 <- lift (item_getitem m 1) ;;
        m2 <- lift (item_getitem m 2) ;;
        m1' <- lift (item_getitem m 1) ;;
        if (m1 =? str_tail m2) || str_is_empty m1'
        then ret true
        else ret false
      else ret false
  end.

Definition fixed_top_level_names : list string :=
  ["/README"; "/CHANGES"; "/dataset_description.json"; "/participants.tsv";
   "/participants.json"; "/phasediff.json"; "/phase1.json"; "/phase2.json";
   "/fieldmap.json"].

Definition func_top_pat : string :=
  "^\/(?:ses-[a-zA-Z0-9]+_)?(?:recording-[a-zA-Z0-9]+_)?task-[a-zA-Z0-9]+(?:_acq-[a-zA-Z0-9]+)?(?:_rec-[a-zA-Z0-9]+)?(?:_run-[0-9]+)?(?:_echo-[0-9]+)?"
  ++ "(_bold.json|_sbref.json|_events.json|_events.tsv|_physio.json|_stim.json|_beh.json)$".

Definition anat_top_pat (suffixes : list string) : string :=
  "^\/(?:ses-[a-zA-Z0-9]+_)?(?:_acq-[a-zA-Z0-9]+)?(?:_rec-[a-zA-Z0-9]+)?(?:_run-[0-9]+_)?"
  ++ "(" ++ String.concat "|" suffixes ++ ").json$".

Definition dwi_top_pat : string :=
  "^\/(?:ses-[a-zA-Z0-9]+)?(?:_acq-[a-zA-Z0-9]+)?(?:_rec-[a-zA-Z0-9]+)?(?:_run-[0-9]+)?(?:_)?"
  ++ "dwi.(?:json|bval|bvec)$".

Definition multi_dir_fieldmap_pat : string :=
  "^\/(?:dir-[a-zA-Z0-9]+)_epi.json$".

Definition other_top_files_pat : string :=
  "^\/(?:ses-[a-zA-Z0-9]+_)?(?:recording-[a-zA-Z0-9]+)?(?:task-[a-zA-Z0-9]+_)?(?:_acq-[a-zA-Z0-9]+)?(?:_rec-[a-zA-Z0-9]+)?(?:_run-[0-9]+)?"
  ++ "(_physio.json|_stim.json)$".

(** Check if the file has appropriate name for a top-level file. *)
Definition is_top_level (path : string) : M bool :=
  func_top_re <- re_compile func_top_pat ;;
  let func_top_flag := found (search func_top_re path) in
  suffixes <- attr anat_suffixes ;;
  anat_top_re <- re_compile (anat_top_pat suffixes) ;;
  let anat_top_flag := found (search anat_top_re path) in
  dwi_top_re <- re_compile dwi_top_pat ;;
  let dwi_top_flag := found (search dwi_top_re path) in
  multi_dir_fieldmap_re <- re_compile multi_dir_fieldmap_pat ;;
  let multi_dir_fieldmap_flag := found (search multi_dir_fieldmap_re path) in
  other_top_files_re <- re_compile other_top_files_pat ;;
  let other_top_files_flag := found (search other_top_files_re path) in
  let check_index := existsb (String.eqb path) fixed_top_level_names in
  ret (check_index ||
       func_top_flag || anat_top_flag ||
       dwi_top_flag || multi_dir_fieldmap_flag || other_top_files_flag).

Definition associated_data_pat : string :=
  "^\/(?:code|derivatives|sourcedata|stimuli)\/(?:.*)$".

(** Check if file is appropriate associated data. *)
Definition is_associated_data (path : string) : M bool :=
  ia <- attr index_associated ;;
  if negb ia then ret false
  else
    associated_data_re <- re_compile associated_data_pat ;;
    let associated_data_flag := search associated_data_re path in
    ret (found associated_data_flag).

Definition phenotypic_pat : string :=
  "^\/(?:phenotype)\/(?:.*.tsv|.*.json)$".

(** Check if file is phenotypic data. *)
Definition is_phenotypic (path : string) : M bool :=
  phenotypic_data <- re_compile phenotypic_pat ;;
  ret (found (search phenotypic_data path)).

Definition scans_pat : string :=
  "^\/(sub-[a-zA-Z0-9]+)" ++
  "\/(?:(ses-[a-zA-Z0-9]+)" ++
  "\/)?\1(_\2)?(_scans.tsv|_scans.json)$".

Definition func_ses_pat : string :=
  "^\/(sub-[a-zA-Z0-9]+)" ++
  "\/(?:(ses-[a-zA-Z0-9]+)" ++
  "\/)?\1(_\2)?task-[a-zA-Z0-9]+(?:_acq-[a-zA-Z0-9]+)?(?:_rec-[a-zA-Z0-9]+)?(?:_run-[0-9]+)?(?:_echo-[0-9]+)?"
  ++ "(_bold.json|_sbref.json|_events.json|_events.tsv|_physio.json|_stim.json)$".

Definition anat_ses_pat (suffixes : list string) : string :=
  "^\/(sub-[a-zA-Z0-9]+)" ++
  "\/(?:(ses-[a-zA-Z0-9]+)" ++
  "\/)?\1(_\2)?(?:_acq-[a-zA-Z0-9]+)?(?:_rec-[a-zA-Z0-9]+)?(?:_run-[0-9]+_)?"
  ++ "(" ++ String.concat "|" suffixes ++ ").json$".

Definition dwi_ses_pat : string :=
  "^\/(sub-[a-zA-Z0-9]+)" ++
  "\/(?:(ses-[a-zA-Z0-9]+)" ++
  "\/)?\1(_\2)?(?:_acq-[a-zA-Z0-9]+)?(?:_rec-[a-zA-Z0-9]+)?(?:_run-[0-9]+)?(?:_)?"
  ++ "dwi.(?:json|bval|bvec)$".

(** Check if the file has appropriate name for a session level. *)
Definition is_session_level (path : string) : M bool :=
  scans_re <- re_compile scans_pat ;;
  func_ses_re <- re_compile func_ses_pat ;;
  suffixes <- attr anat_suffixes ;;
  anat_ses_re <- re_compile (anat_ses_pat suffixes) ;;
  dwi_ses_re <- re_compile dwi_ses_pat ;;
  b1 <- conditional_match scans_re path ;;
  b2 <- conditional_match func_ses_re path ;;
  b3 <- conditional_match anat_ses_re path ;;
  b4 <- conditional_match dwi_ses_re path ;;
  ret (b1 || b2 || b3 || b4).

Definition sessions_pat : string :=
  "^\/(sub-[a-zA-Z0-9]+)" ++
  "\/\1(_sessions.tsv|_sessions.json)$".

(** Check if the file has appropriate name for a subject level. *)
Definition is_subject_level (path : string) : M bool :=
  scans_re <- re_compile sessions_pat ;;
  ret (found (search scans_re path)).

Definition anat_pat (suffixes : list string) : string :=
  "^\/(sub-[a-zA-Z0-9]+)" ++
  "\/(?:(ses-[a-zA-Z0-9]+)" ++
  "\/)?anat" ++
  "\/\1(_\2)?(?:_acq-[a-zA-Z0-9]+)?(?:_rec-[a-zA-Z0-9]+)?(?:_run-[0-9]+)?_(?:"
  ++ String.concat "|" suffixes
  ++ ").(nii.gz|nii|json)$".

(** Check if the file has a name appropriate for an anatomical scan. *)
Definition is_anat (path : string) : M bool :=
  suffixes <- attr anat_suffixes ;;
  anat_re <- re_compile (anat_pat suffixes) ;;
  conditional_match anat_re path.

Definition dwi_pat : string :=
  let suffixes := ["dwi"; "sbref"] in
  "^\/(sub-[a-zA-Z0-9]+)" ++
  "\/(?:(ses-[a-zA-Z0-9]+)" ++
  "\/)?dwi" ++
  "\/\1(_\2)?(?:_acq-[a-zA-Z0-9]+)?(?:_rec-[a-zA-Z0-9]+)?(?:_run-[0-9]+)?_(?:"
  ++ String.concat "|" suffixes
  ++ ").(nii.gz|nii|json|bvec|bval)$".

(** Check if the file has a name appropriate for a diffusion scan. *)
Definition is_dwi (path : string) : M bool :=
  anat_re <- re_compile dwi_pat ;;
  conditional_match anat_re path.

Definition field_map_pat : string :=
  let suffixes := ["phasediff"; "phase1"; "phase2"; "magnitude1";
                   "magnitude2"; "magnitude"; "fieldmap"; "epi"] in
  "^\/(sub-[a-zA-Z0-9]+)" ++
  "\/(?:(ses-[a-zA-Z0-9]+)" ++
  "\/)?fmap" ++
  "\/\1(_\2)?(?:_acq-[a-zA-Z0-9]+)?(?:_rec-[a-zA-Z0-9]+)?(?:_dir-[a-zA-Z0-9]+)?(?:_run-[0-9]+)?_(?:"
  ++ String.concat "|" suffixes
  ++ ").(nii.gz|nii|json)$".

(** Check if the file has a name appropriate for a fieldmap scan. *)
Definition is_field_map (path : string) : M bool :=
  anat_re <- re_compile field_map_pat ;;
  conditional_match anat_re path.

Definition func_pat : string :=
  "^\/(sub-[a-zA-Z0-9]+)" ++
  "\/(?:(ses-[a-zA-Z0-9]+)" ++
  "\/)?func" ++
  "\/\1(_\2)?_task-[a-zA-Z0-9]+(?:_acq-[a-zA-Z0-9]+)?(?:_rec-[a-zA-Z0-9]+)?(?:_run-[0-9]+)?(?:_echo-[0-9]+)?"
  ++ "(?:_bold.nii.gz|_bold.nii|_bold.json|_sbref.nii.gz|_sbref.json|_events.json|_events.tsv|_physio.tsv.gz|_stim.tsv.gz|_physio.json|_stim.json|_defacemask.nii.gz|_defacemask.nii)$".

(** Check if the file has a name appropriate for a functional scan. *)
Definition is_func (path : string) : M bool :=
  func_re <- re_compile func_pat ;;
  conditional_match func_re path.

Definition beh_pat : string :=
  "^\/(sub-[a-zA-Z0-9]+)" ++
  "\/(?:(ses-[a-zA-Z0-9]+)" ++
  "\/)?beh" ++
  "\/\1(_\2)?_task-[a-zA-Z0-9]+(?:_acq-[a-zA-Z0-9]+)?(?:_rec-[a-zA-Z0-9]+)?(?:_run-[0-9]+)?"
  ++ "(?:_beh.json|_events.json|_events.tsv|_physio.tsv.gz|_stim.tsv.gz|_physio.json|_stim.json)$".

(** Check if the file has a name appropriate for behavioral data. *)
Definition is_behavioral (path : string) : M bool :=
  func_beh <- re_compile beh_pat ;;
  conditional_match func_beh path.

Definition func_bold_pat : string :=
  "^\/(sub-[a-zA-Z0-9]+)" ++
  "\/(?:(ses-[a-zA-Z0-9]+)" ++
  "\/)?func" ++
  "\/\1(_\2)?_task-[a-zA-Z0-9]+(?:_acq-[a-zA-Z0-9]+)?(?:_rec-[a-zA-Z0-9]+)?" ++
  "(?:_run-[0-9]+)?(?:_echo-[0-9]+)?"
  ++ "(?:_bold.nii.gz|_bold.nii|_sbref.nii.gz|_sbref.nii)$".

(** Check if the file has a name appropriate for functional bold. *)
Definition is_func_bold (path : string) : M bool :=
  func_re <- re_compile func_bold_pat ;;
  conditional_match func_re path.

Definition cont_pat : string :=
  "^\/(sub-[a-zA-Z0-9]+)" ++
  "\/(?:(ses-[a-zA-Z0-9]+)" ++
  "\/)?(?:func|beh)" ++
  "\/\1(_\2)?_task-[a-zA-Z0-9]+(?:_acq-[a-zA-Z0-9]+)?(?:_rec-[a-zA-Z0-9]+)?(?:_run-[0-9]+)?" ++
  "(?:_recording-[a-zA-Z0-9]+)?"
  ++ "(?:_physio.tsv.gz|_stim.tsv.gz|_physio.json|_stim.json)$".

(** Check if the file has a name appropriate for physiological and
    continuous recordings. *)
Definition is_cont (path : string) : M bool :=
  cont_re <- re_compile cont_pat ;;
  conditional_match cont_re path.

(** Checks if a file path appropriate for BIDS.  Every rule is evaluated,
    left to right; [|] on two [bool]s is their disjunction. *)
Definition is_bids (path : string) : M bool :=
  b1 <- is_top_level path ;;
  b2 <- is_associated_data path ;;
  b3 <- is_session_level path ;;
  b4 <- is_subject_level path ;;
  b5 <- is_anat path ;;
  b6 <- is_dwi path ;;
  b7 <- is_func path ;;
  b8 <- is_behavioral path ;;
  b9 <- is_cont path ;;
  b10 <- is_field_map path ;;
  b11 <- is_phenotypic path ;;
  ret (b1 || b2 || b3 || b4 || b5 || b6 || b7 || b8 || b9 || b10 || b11).

(** [values[key] = v] on a dict kept as an association list *)
Definition dict_set {V} (d : list (string * V)) (k : string) (v : V)
  : list (string * V) :=
  (k, v) :: filter (fun kv => negb (fst kv =? k)) d.

(** [l[i]] on a list *)
Definition list_getitem {A} (l : list A) (i : nat) : result A :=
  match nth_error l i with
  | Some v => Ok v
  | None => Raise IndexError
  end.

(** [l & x] for a list [l]: the operator is not defined on lists *)
Definition list_and {A} (l : list A) (x : A) : result bool :=
  Raise TypeError.

Definition path_sub_pat : string := "/^\/sub-([a-zA-Z0-9]+)/)".

Definition path_ses_pat : string := "/^\/sub-[a-zA-Z0-9]+\/ses-([a-zA-Z0-9]+)/".

(** [match[1] if match & match[1] else None] *)
Definition second_if_and (match_ : list item) : M (option item) :=
  m1 <- lift (list_getitem match_ 1) ;;
  c <- lift (list_and match_ m1) ;;
  if c then
    x <- lift (list_getitem match_ 1) ;;
    ret (Some x)
  else ret None.

(** Takes a file path and returns values found for the path keys
    [sub-] and [ses-]. *)
Definition get_path_values (path : string)
  : M (list (string * option item)) :=
  let values := [] in
  (* capture subject *)
  sub_re <- re_compile path_sub_pat ;;
  let match_ := findall sub_re path in
  v <- second_if_and match_ ;;
  let values := dict_set values "sub" v in
  (* capture session *)
  ses_re <- re_compile path_ses_pat ;;
  let match_ := findall ses_re path in
  v <- second_if_and match_ ;;
  let values := dict_set values "ses" v in
  ret values.

(** * Vocabulary of the statements *)

(** Every character of [s] satisfies [f]. *)
Fixpoint str_all (f : ascii -> bool) (s : string) : bool :=
  match s with
  | "" => true
  | String a s' => f a && str_all f s'
  end.

(** The pattern starts with [^], so it can match at position 0 only. *)
Definition anchored (r : regex) : bool :=
  match r with
  | RCat RBol _ => true
  | _ => false
  end.

(** The match Python reports at position 0, if any. *)
Definition first_match (pt : pattern) (s : string) : option (string * mstate) :=
  hd_error (mt (rx pt) (MState 0 s [])).

(** The test [conditional_match] makes on a match:
    [(match[1] == match[2][1:]) | (not match[1])], on the second and third
    groups. *)
Definition session_consistent (m : string * mstate) : bool :=
  let g2 := group_text (caps (snd m)) 2 in
  let g3 := group_text (caps (snd m)) 3 in
  (g2 =? str_tail g3) || str_is_empty g2.

(** What [conditional_match] returns for an anchored pattern with at least
    three groups. *)
Definition accepts (pt : pattern) (path : string) : bool :=
  match first_match pt path with
  | Some m => session_consistent m
  | None => false
  end.

(** The patterns of the methods, compiled once; [anat_suffixes] is the list
    [__init__] stores. *)
Definition compiled (pat : string) : pattern :=
  match compile pat with
  | Ok pt => pt
  | Raise _ => {| rx := REmpty; ngroups := 0 |}
  end.

Definition func_top_re : pattern := Eval vm_compute in compiled func_top_pat.

Definition anat_top_re : pattern :=
  Eval vm_compute in compiled (anat_top_pat (anat_suffixes default_validator)).

Definition dwi_top_re : pattern := Eval vm_compute in compiled dwi_top_pat.

Definition multi_dir_fieldmap_re : pattern :=
  Eval vm_compute in compiled multi_dir_fieldmap_pat.

Definition other_top_files_re : pattern :=
  Eval vm_compute in compiled other_top_files_pat.

Definition associated_data_re : pattern :=
  Eval vm_compute in compiled associated_data_pat.

Definition phenotypic_re : pattern := Eval vm_compute in compiled phenotypic_pat.

Definition scans_re : pattern := Eval vm_compute in compiled scans_pat.

Definition func_ses_re : pattern := Eval vm_compute in compiled func_ses_pat.

Definition anat_ses_re : pattern :=
  Eval vm_compute in compiled (anat_ses_pat (anat_suffixes default_validator)).

Definition dwi_ses_re : pattern := Eval vm_compute in compiled dwi_ses_pat.

Definition sessions_re : pattern := Eval vm_compute in compiled sessions_pat.

Definition anat_re : pattern :=
  Eval vm_compute in compiled (anat_pat (anat_suffixes default_validator)).

Definition dwi_re : pattern := Eval vm_compute in compiled dwi_pat.

Definition field_map_re : pattern := Eval vm_compute in compiled field_map_pat.

Definition func_re : pattern := Eval vm_compute in compiled func_pat.

Definition beh_re : pattern := Eval vm_compute in compiled beh_pat.

Definition cont_re : pattern := Eval vm_compute in compiled cont_pat.

(** What each method returns on a validator built by [init], as a function
    of the path (and of the flag, for the associated-data rule). *)
Definition top_level_b (path : string) : bool :=
  existsb (String.eqb path) fixed_top_level_names ||
  found (first_match func_top_re path) ||
  found (first_match anat_top_re path) ||
  found (first_match dwi_top_re path) ||
  found (first_match multi_dir_fieldmap_re path) ||
  found (first_match other_top_files_re path).

Definition associated_data_b (ia : bool) (path : string) : bool :=
  ia && found (first_match associated_data_re path).

Definition phenotypic_b (path : string) : bool :=
  found (first_match phenotypic_re path).

Definition session_level_b (path : string) : bool :=
  accepts scans_re path || accepts func_ses_re path ||
  accepts anat_ses_re path || accepts dwi_ses_re path.

Definition subject_level_b (path : string) : bool :=
  found (first_match sessions_re path).

Definition bids_b (ia : bool) (path : string) : bool :=
  top_level_b path || associated_data_b ia path || session_level_b path ||
  subject_level_b path || accepts anat_re path || accepts dwi_re path ||
  accepts func_re path || accepts beh_re path || accepts cont_re path ||
  accepts field_map_re path || phenotypic_b path.

(** The path begins with [/code/], [/derivatives/], [/sourcedata/] or
    [/stimuli/]. *)
Definition under_associated (path : string) : bool :=
  prefix "/code/" path || prefix "/derivatives/" path ||
  prefix "/sourcedata/" path || prefix "/stimuli/" path.

(** [[a-zA-Z0-9]] *)
Definition alnum : cset :=
  CClass [("a"%char, "z"%char); ("A"%char, "Z"%char); ("0"%char, "9"%char)].

(** A non-empty run of letters and digits. *)
Definition is_label (s : string) : bool :=
  str_all (cset_mem alnum) s && negb (str_is_empty s).

(** The directories between the subject directory and the file name. *)
Definition modality_dirs : list string :=
  [""; "anat/"; "dwi/"; "func/"; "beh/"; "fmap/"].

(** No session directory, or [ses-<L>/]. *)
Definition session_dir (ses : string) : Prop :=
  ses = "" \/ exists L, is_label L = true /\ ses = "ses-" ++ L ++ "/".

(** [/sub-<S>/[ses-<L>/][<modality>/]sub-<S><tail>] *)
Definition subject_shape (path : string) : Prop :=
  exists S ses mod_ tail,
    is_label S = true /\ session_dir ses /\ In mod_ modality_dirs /\
    path = "/sub-" ++ S ++ "/" ++ ses ++ mod_ ++ "sub-" ++ S ++ tail.



(** [/sub-<S>/ses-<A>/anat/sub-<S>_ses-<B>_T1w.nii.gz] *)
Definition T1w_path (S A B : string) : string :=
  "/sub-" ++ S ++ "/ses-" ++ A ++ "/anat/sub-" ++ S ++ "_ses-" ++ B ++
  "_T1w.nii.gz".

(** The eleven category rules, in the order [is_bids] evaluates them. *)
Definition rules : list (string -> M bool) :=
  [is_top_level; is_associated_data; is_session_level; is_subject_level;
   is_anat; is_dwi; is_func; is_behavioral; is_cont; is_field_map;
   is_phenotypic].

(** The rules whose directory shape starts with a subject directory. *)
Definition subject_scoped_rules : list (string -> M bool) :=
  [is_session_level; is_subject_level; is_anat; is_dwi; is_func;
   is_behavioral; is_cont; is_field_map].

(** The rules that read a session directory and a session token of the
    file name, each with the patterns it runs [conditional_match] on:
    [is_session_level] on four, the others on one. *)
Definition two_level_rules : list ((string -> M bool) * list pattern) :=
  [(is_session_level, [scans_re; func_ses_re; anat_ses_re; dwi_ses_re]);
   (is_anat, [anat_re]); (is_dwi, [dwi_re]); (is_func, [func_re]);
   (is_behavioral, [beh_re]); (is_cont, [cont_re]);
   (is_field_map, [field_map_re])].

(** Evaluate every rule of [rs] in turn and take the disjunction. *)
Fixpoint any_rule (rs : list (string -> M bool)) (path : string) : M bool :=
  match rs with
  | [] => ret false
  | r :: rs' =>
      b <- r path ;;
      b' <- any_rule rs' path ;;
      ret (b || b')
  end.

(** The rule returned [True]. *)
Definition says_true (x : result bool * BIDSValidator) : bool :=
  match fst x with
  | Ok true => true
  | _ => false
  end.

(** The session directory and the session token of the file name that the
    first match of a two-level pattern captured ([""] for a group that took
    no part). *)
Definition session_captures (pt : pattern) (path : string)
  : option (string * string) :=
  match first_match pt path with
  | Some m => Some (group_text (caps (snd m)) 2, group_text (caps (snd m)) 3)
  | None => None
  end.

(** [s] ends with [suffix]. *)
Fixpoint ends_with (suffix s : string) : bool :=
  (s =? suffix) ||
  match s with
  | "" => false
  | String _ s' => ends_with suffix s'
  end.

(** Every anatomical suffix followed by every extension of the rule. *)
Definition anat_endings : list string :=
  flat_map (fun sfx => map (fun ext => sfx ++ ext) [".nii.gz"; ".nii"; ".json"])
           (anat_suffixes default_validator).

(** [m] hands back the object it was run on. *)
Definition preserves_self {A} (m : M A) : Prop :=
  forall self, snd (m self) = self.

(** The rules other than the associated-data rule. *)
Definition other_rules : list (string -> M bool) :=
  [is_top_level; is_session_level; is_subject_level; is_anat; is_dwi;
   is_func; is_behavioral; is_cont; is_field_map; is_phenotypic].

(** The rules of the five modality directories. *)
Definition modality_rules : list (string -> M bool) :=
  [is_anat; is_dwi; is_func; is_behavioral; is_field_map].

(** The rules other than [is_cont], which shares [func/] and [beh/] with
    [is_func] and [is_behavioral]. *)
Definition rules_but_cont : list (string -> M bool) :=
  [is_top_level; is_associated_data; is_session_level; is_subject_level;
   is_anat; is_dwi; is_func; is_behavioral; is_field_map; is_phenotypic].

(** What the rules of [rules_but_cont] return on a validator built by
    [init]. *)
Definition answers_but_cont (ia : bool) (path : string) : list bool :=
  [top_level_b path; associated_data_b ia path; session_level_b path;
   subject_level_b path; accepts anat_re path; accepts dwi_re path;
   accepts func_re path; accepts beh_re path; accepts field_map_re path;
   phenotypic_b path].

(** [/sub-<S>/sub-<S'>_sessions<ext>] *)
Definition sessions_path (S S' ext : string) : string :=
  "/sub-" ++ S ++ "/sub-" ++ S' ++ "_sessions" ++ ext.

(** [/sub-<S>/[<ses>]sub-<S><fses>_scans.tsv], with [ses] the session
    directory and [fses] the session token of the file name. *)
Definition scans_path (S ses fses : string) : string :=
  "/sub-" ++ S ++ "/" ++ ses ++ "sub-" ++ S ++ fses ++ "_scans.tsv".

(** No character of [s] is a line feed. *)
Definition single_line (s : string) : bool := str_all (cset_mem CDot) s.

(** [/phenotype/<r><a><ext><nl>]: what [is_phenotypic] accepts, with [a]
    any character but a line feed, [ext] one of [tsv] and [json], and [nl]
    nothing or one line feed. *)
Definition phenotype_shape (path : string) : Prop :=
  exists r a ext nl,
    single_line (r ++ String a "") = true /\
    In ext ["tsv"; "json"] /\ In nl [""; String newline ""] /\
    path = "/phenotype/" ++ r ++ String a ext ++ nl.

(** The pattern of [is_func_bold], compiled. *)
Definition func_bold_re : pattern := Eval vm_compute in compiled func_bold_pat.

(** [/sub-<S>/func/sub-<S>_task-<T>_sbref.nii] *)
Definition sbref_nii_path (S T : string) : string :=
  "/sub-" ++ S ++ "/func/sub-" ++ S ++ "_task-" ++ T ++ "_sbref.nii".

(** ** Duplicate files: the grouping loop of [check_duplicate_files]

    [md5] stands for the nested function of that name, the digest of the
    content of a file, the files being left alone while the loop runs.
    The dict [hash_map] is an association list in insertion order, the
    order Python keeps. *)

Definition hash_map_t : Type := list (string * list string).

(** [hash_map[k]], [None] when [k not in hash_map] *)
Fixpoint hash_map_get (hash_map : hash_map_t) (k : string)
  : option (list string) :=
  match hash_map with
  | [] => None
  | (k', v) :: d => if k' =? k then Some v else hash_map_get d k
  end.

(** [hash_map[k] = v]: a key already there keeps its place *)
Fixpoint hash_map_set (hash_map : hash_map_t) (k : string) (v : list string)
  : hash_map_t :=
  match hash_map with
  | [] => [(k, v)]
  | (k', v') :: d =>
      if k' =? k then (k, v) :: d else (k', v') :: hash_map_set d k v
  end.

(** The body of the loop over [all_niftis]. *)
Definition hash_map_step (md5 : string -> string) (hash_map : hash_map_t)
    (nifti_file : string) : hash_map_t :=
  let md5sum := md5 nifti_file in
  match hash_map_get hash_map md5sum with
  | Some l => hash_map_set hash_map md5sum (l ++ [nifti_file])%list
  | None => hash_map_set hash_map md5sum [nifti_file]
  end.

(** [hash_map] when the loop is over. *)
Definition hash_map_loop (md5 : string -> string) (all_niftis : list string)
  : hash_map_t :=
  fold_left (hash_map_step md5) all_niftis [].

(** The files of [files] whose digest is [h], in the order of [files]. *)
Definition with_digest (md5 : string -> string) (h : string)
    (files : list string) : list string :=
  filter (fun f => md5 f =? h) files.

(** [chr(10)] as a str *)
Definition line_feed : string := String newline "".

(** No one-character matcher of [r] reads a line feed. *)
Fixpoint reads_no_line_feed (r : regex) : bool :=
  match r with
  | RChar cs | RRepeat _ cs => negb (cset_mem cs newline)
  | RCat r1 r2 | RAlt r1 r2 => reads_no_line_feed r1 && reads_no_line_feed r2
  | ROpt r' | RGroup _ r' => reads_no_line_feed r'
  | REmpty | RBol | REol | RBackref _ => true
  end.

(** The state [st] with [x] put after the text still to read. *)
Definition extend (x : string) (st : mstate) : mstate :=
  MState (pos st) (rest st ++ x) (caps st).

Definition extend_match (x : string) (m : string * mstate)
  : string * mstate :=
  (fst m, extend x (snd m)).

(** No captured text holds a line feed. *)
Definition caps_single_line (cs : list (nat * string)) : bool :=
  forallb (fun nv => single_line (snd nv)) cs.

(** The pattern ends with [$]. *)
Fixpoint ends_at_eol (r : regex) : bool :=
  match r with
  | REol => true
  | RCat r1 REmpty => ends_at_eol r1
  | RCat _ r2 => ends_at_eol r2
  | _ => false
  end.

(** [/sub-<S>/sub-<S><sep>task-<T>_bold.json] *)
Definition task_sidecar_path (S sep T : string) : string :=
  "/sub-" ++ S ++ "/sub-" ++ S ++ sep ++ "task-" ++ T ++ "_bold.json".

(** The directories of a path, up to its last slash, and the file name
    after it. *)
Fixpoint split_file (path : string) : string * string :=
  match path with
  | "" => ("", "")
  | String a s' =>
      let (d, f) := split_file s' in
      match d with
      | "" => if Ascii.eqb a "/" then (String a "", f) else ("", String a f)
      | _ => (String a d, f)
      end
  end.

(** The letters and digits [s] starts with. *)
Fixpoint take_label (s : string) : string :=
  match s with
  | String a s' => if cset_mem alnum a then String a (take_label s') else ""
  | "" => ""
  end.

(** The label of the first token [<marker><label>] in [s]: the letters and
    digits that follow the first [marker]. *)
Fixpoint token_label (marker s : string) {struct s} : option string :=
  match strip_prefix marker s with
  | Some r => Some (take_label r)
  | None =>
      match s with
      | String _ s' => token_label marker s'
      | "" => None
      end
  end.

(** The label a token has in the directories of a path, and in its file
    name. *)
Definition dir_label (marker path : string) : option string :=
  token_label marker (fst (split_file path)).

Definition file_label (marker path : string) : option string :=
  token_label marker (snd (split_file path)).

(** Whatever [r] reads starts with [a] ([leads]), or is empty or starts
    with [a] ([opt_leads]); [false] when the pattern does not show it. *)
Fixpoint leads (a : ascii) (r : regex) : bool :=
  match r with
  | RChar (CLit c) => Ascii.eqb c a
  | RCat r1 r2 => leads a r1 || (opt_leads a r1 && leads a r2)
  | RAlt r1 r2 => leads a r1 && leads a r2
  | RGroup _ r' => leads a r'
  | _ => false
  end
with opt_leads (a : ascii) (r : regex) : bool :=
  match r with
  | REmpty | RBol | REol => true
  | RChar (CLit c) => Ascii.eqb c a
  | RCat r1 r2 => leads a r1 || (opt_leads a r1 && opt_leads a r2)
  | RAlt r1 r2 => opt_leads a r1 && opt_leads a r2
  | ROpt r' | RGroup _ r' => opt_leads a r'
  | _ => false
  end.

(** [/sub-<S>/[ses-<L>/][<modality>/]sub-<S>_<t>]: after the directories
    comes the subject token of the subject directory, then an underscore. *)
Definition subject_repeated (path : string) : Prop :=
  exists S ses mod_ t,
    is_label S = true /\ session_dir ses /\ In mod_ modality_dirs /\
    path = "/sub-" ++ S ++ "/" ++ ses ++ mod_ ++ "sub-" ++ S ++ "_" ++ t.

(** The subject-scoped rules other than [is_session_level]. *)
Definition separated_rules : list (string -> M bool) :=
  [is_subject_level; is_anat; is_dwi; is_func; is_behavioral; is_cont;
   is_field_map].

(** * Facts about strings *)

Lemma append_nil_r (s : string) : s ++ "" = s.
Proof. induction s as [|a s IH]; simpl; [reflexivity | now rewrite IH]. Qed.

Lemma append_assoc (a b c : string) : (a ++ b) ++ c = a ++ (b ++ c).
Proof. induction a as [|x a IH]; simpl; [reflexivity | now rewrite IH]. Qed.

Lemma length_append (a b : string) :
  String.length (a ++ b) = String.length a + String.length b.
Proof. induction a as [|x a IH]; simpl; [reflexivity | now rewrite IH]. Qed.

Lemma append_inv_head (a b c : string) : a ++ b = a ++ c -> b = c.
Proof.
  induction a as [|x a IH]; simpl; intros H; [exact H|].
  injection H as H. now apply IH.
Qed.

Lemma strip_prefix_spec (v s r : string) :
  strip_prefix v s = Some r <-> s = v ++ r.
Proof.
  revert s; induction v as [|a v IH]; intros s; simpl.
  - split; intros H; [now injection H as -> | now subst].
  - destruct s as [|b s].
    + split; intros H; discriminate.
    + destruct (Ascii.eqb_spec a b) as [->|Hab].
      * rewrite IH. split; intros H; [now subst | now injection H].
      * split; intros H; [discriminate | injection H as H1 H2; congruence].
Qed.

Lemma str_all_append f (a b : string) :
  str_all f (a ++ b) = str_all f a && str_all f b.
Proof.
  induction a as [|x a IH]; simpl; [reflexivity|].
  now rewrite IH, andb_assoc.
Qed.

(** A run of [f]-characters followed by a character outside [f] reads in
    one way only. *)
Lemma run_split_unique f (c1 c2 r1 r2 : string) (d1 d2 : ascii) :
  str_all f c1 = true -> str_all f c2 = true ->
  f d1 = false -> f d2 = false ->
  c1 ++ String d1 r1 = c2 ++ String d2 r2 ->
  c1 = c2 /\ d1 = d2 /\ r1 = r2.
Proof.
  revert c2; induction c1 as [|x c1 IH]; intros [|y c2]; simpl;
    intros H1 H2 Hd1 Hd2 E.
  - now injection E as -> ->.
  - injection E as -> _. apply andb_prop in H2. destruct H2. congruence.
  - injection E as -> _. apply andb_prop in H1. destruct H1. congruence.
  - injection E as -> E. apply andb_prop in H1, H2.
    destruct H1 as [_ H1], H2 as [_ H2].
    destruct (IH _ H1 H2 Hd1 Hd2 E) as (-> & -> & ->). auto.
Qed.

(** * Facts about the matcher *)

Section MatcherFacts.

Lemma in_rep_splits cs (s c r : string) :
  In (c, r) (rep_splits cs s) <-> s = c ++ r /\ str_all (cset_mem cs) c = true.
Proof.
  revert c; induction s as [|a s IH]; intros c; simpl.
  - split.
    + intros [H|[]]. injection H as <- <-. auto.
    + intros [H _]. destruct c; [|discriminate]. simpl in H. subst. auto.
  - destruct (cset_mem cs a) eqn:Ha.
    + rewrite in_app_iff, in_map_iff. split.
      * intros [((c', r') & E & Hin)|[H|[]]].
        -- simpl in E. injection E as <- <-. apply IH in Hin.
           destruct Hin as [-> Hall]. simpl. now rewrite Ha.
        -- injection H as <- <-. auto.
      * intros [E Hall]. destruct c as [|b c]; simpl in E.
        -- right. left. now subst.
        -- injection E as <- ->. simpl in Hall. rewrite Ha in Hall.
           left. exists (c, r). split; [reflexivity|]. apply IH. auto.
    + split.
      * intros [H|[]]. injection H as <- <-. auto.
      * intros [E Hall]. destruct c as [|b c]; simpl in E.
        -- left. now subst.
        -- injection E as <- ->. simpl in Hall. now rewrite Ha in Hall.
Qed.

Lemma in_mt_empty c st' st :
  In (c, st') (mt REmpty st) <-> c = "" /\ st' = st.
Proof.
  simpl. split.
  - intros [H|[]]. now injection H as <- <-.
  - intros [-> ->]. auto.
Qed.

Lemma in_mt_char cs c st' p s k :
  In (c, st') (mt (RChar cs) (MState p s k)) <->
  exists a s', s = String a s' /\ cset_mem cs a = true /\
               c = String a "" /\ st' = MState (S p) s' k.
Proof.
  simpl. destruct s as [|a s].
  - split; [intros [] | intros (a & s' & E & _); discriminate].
  - destruct (cset_mem cs a) eqn:Ha.
    + split.
      * intros [H|[]]. injection H as <- <-. eauto 6.
      * intros (b & s' & E & _ & -> & ->). injection E as <- <-. now left.
    + split; [intros [] |].
      intros (b & s' & E & Hb & _). injection E as <- <-. congruence.
Qed.

Lemma in_mt_lit a c st' p s k :
  In (c, st') (mt (RChar (CLit a)) (MState p s k)) <->
  exists s', s = String a s' /\ c = String a "" /\ st' = MState (S p) s' k.
Proof.
  rewrite in_mt_char. split.
  - intros (b & s' & -> & Hb & -> & ->). simpl in Hb.
    apply Ascii.eqb_eq in Hb. subst. eauto.
  - intros (s' & -> & -> & ->). exists a, s'. simpl.
    rewrite Ascii.eqb_refl. auto.
Qed.

Lemma in_mt_repeat min cs c st' p s k :
  In (c, st') (mt (RRepeat min cs) (MState p s k)) <->
  exists r, s = c ++ r /\ str_all (cset_mem cs) c = true /\
            min <= String.length c /\
            st' = MState (p + String.length c) r k.
Proof.
  simpl. rewrite in_map_iff. split.
  - intros ((c', r') & E & Hin). simpl in E. injection E as <- <-.
    apply filter_In in Hin. destruct Hin as [Hin Hmin]. simpl in Hmin.
    apply in_rep_splits in Hin. destruct Hin as [-> Hall].
    apply Nat.leb_le in Hmin. eauto.
  - intros (r & -> & Hall & Hmin & ->). exists (c, r). split; [reflexivity|].
    apply filter_In. split.
    + apply in_rep_splits. auto.
    + simpl. now apply Nat.leb_le.
Qed.

Lemma in_mt_bol c st' p s k :
  In (c, st') (mt RBol (MState p s k)) <->
  p = 0 /\ c = "" /\ st' = MState p s k.
Proof.
  simpl. destruct p; simpl.
  - split; [intros [H|[]]; now injection H as <- <- | intros (_ & -> & ->); auto].
  - split; [intros [] | intros (H & _); discriminate].
Qed.

Lemma in_mt_eol c st' p s k :
  In (c, st') (mt REol (MState p s k)) <->
  (s = "" \/ s = String newline "") /\ c = "" /\ st' = MState p s k.
Proof.
  simpl. destruct s as [|a [|b s]].
  - split.
    + intros [H|[]]. injection H as <- <-. auto.
    + intros (_ & -> & ->). now left.
  - destruct (Ascii.eqb_spec a newline) as [->|Hn].
    + split.
      * intros [H|[]]. injection H as <- <-. auto.
      * intros (_ & -> & ->). now left.
    + split; [intros []|]. intros ([H|H] & _); [discriminate | congruence].
  - split; [intros []|]. intros ([H|H] & _); discriminate.
Qed.

Lemma in_mt_cat r1 r2 c st' st :
  In (c, st') (mt (RCat r1 r2) st) <->
  exists c1 st1 c2, In (c1, st1) (mt r1 st) /\ In (c2, st') (mt r2 st1) /\
                    c = c1 ++ c2.
Proof.
  simpl. rewrite in_flat_map. split.
  - intros ((c1, st1) & H1 & H2). apply in_map_iff in H2.
    destruct H2 as ((c2, st2) & E & H2). simpl in E. injection E as <- <-.
    eauto 6.
  - intros (c1 & st1 & c2 & H1 & H2 & ->). exists (c1, st1). split; [exact H1|].
    apply in_map_iff. exists (c2, st'). auto.
Qed.

Lemma in_mt_alt r1 r2 m st :
  In m (mt (RAlt r1 r2) st) <-> In m (mt r1 st) \/ In m (mt r2 st).
Proof. simpl. apply in_app_iff. Qed.

Lemma in_mt_opt r c st' st :
  In (c, st') (mt (ROpt r) st) <->
  In (c, st') (mt r st) \/ (c = "" /\ st' = st).
Proof.
  simpl. rewrite in_app_iff. simpl. split.
  - intros [H|[H|[]]]; [auto | injection H as <- <-; auto].
  - intros [H|[-> ->]]; auto.
Qed.

Lemma in_mt_group n r c st' st :
  In (c, st') (mt (RGroup n r) st) <->
  exists st1, In (c, st1) (mt r st) /\
              st' = MState (pos st1) (rest st1) ((n, c) :: caps st1).
Proof.
  simpl. rewrite in_map_iff. split.
  - intros ((c1, st1) & E & H). simpl in E. injection E as <- <-. eauto.
  - intros (st1 & H & ->). exists (c, st1). auto.
Qed.

Lemma in_mt_backref n c st' p s k :
  In (c, st') (mt (RBackref n) (MState p s k)) <->
  exists r, cap_lookup n k = Some c /\ s = c ++ r /\
            st' = MState (p + String.length c) r k.
Proof.
  simpl. destruct (cap_lookup n k) as [v|].
  - destruct (strip_prefix v s) as [s'|] eqn:E.
    + apply strip_prefix_spec in E. subst s. split.
      * intros [H|[]]. injection H as <- <-. eauto.
      * intros (r & Hv & Hs & ->). injection Hv as <-.
        apply append_inv_head in Hs. subst. now left.
    + split; [intros []|]. intros (r & Hv & Hs & _). injection Hv as <-.
      apply strip_prefix_spec in Hs. congruence.
  - split; [intros [] | intros (r & Hv & _); discriminate].
Qed.

(** A match reads a prefix of the text and moves the position by its
    length. *)
Lemma mt_reads r : forall st c st',
  In (c, st') (mt r st) ->
  rest st = c ++ rest st' /\ pos st' = pos st + String.length c.
Proof.
  induction r; intros [p s k] c st'.
  - rewrite in_mt_empty. intros [-> ->]. simpl. auto.
  - rewrite in_mt_char. intros (a & s' & -> & _ & -> & ->). simpl.
    split; [reflexivity | lia].
  - rewrite in_mt_repeat. intros (r & -> & _ & _ & ->). simpl. auto.
  - rewrite in_mt_bol. intros (_ & -> & ->). simpl. auto.
  - rewrite in_mt_eol. intros (_ & -> & ->). simpl. auto.
  - rewrite in_mt_cat. intros (c1 & st1 & c2 & H1 & H2 & ->).
    apply IHr1 in H1. apply IHr2 in H2. destruct H1 as [E1 P1], H2 as [E2 P2].
    rewrite E1, E2, P2, P1, append_assoc, length_append. split; [auto | lia].
  - rewrite in_mt_alt. intros [H|H]; [now apply IHr1 | now apply IHr2].
  - rewrite in_mt_opt. intros [H|[-> ->]]; [now apply IHr | simpl; auto].
  - rewrite in_mt_group. intros (st1 & H & ->). apply IHr in H. exact H.
  - rewrite in_mt_backref. intros (r & _ & -> & ->). simpl. auto.
Qed.

End MatcherFacts.

(** * Patterns anchored at the start of the path *)

Section Anchored.

Variable pt : pattern.
Hypothesis Hanch : anchored (rx pt) = true.

Lemma mt_anchored_later p s k : 0 < p -> mt (rx pt) (MState p s k) = [].
Proof.
  intros Hp. destruct (rx pt) as [| | | | |r1 r2| | | |]; try discriminate.
  destruct r1; try discriminate. destruct p; [lia | reflexivity].
Qed.

Lemma scan_anchored_later fuel : forall i s, 0 < i -> scan fuel pt i s = [].
Proof.
  induction fuel as [|fuel IH]; intros i s Hi; simpl; [reflexivity|].
  rewrite mt_anchored_later by exact Hi.
  destruct s; [reflexivity | apply IH; lia].
Qed.

Lemma matches_anchored s :
  matches pt s = match first_match pt s with Some m => [m] | None => [] end.
Proof.
  unfold matches, first_match. simpl.
  destruct (mt (rx pt) (MState 0 s [])) as [|[c st'] l] eqn:E; simpl.
  - destruct s; [reflexivity | apply scan_anchored_later; lia].
  - f_equal. destruct c as [|a c]; simpl.
    + destruct s; [reflexivity | apply scan_anchored_later; lia].
    + assert (Hin : In (String a c, st') (mt (rx pt) (MState 0 s [])))
        by (rewrite E; now left).
      apply mt_reads in Hin. destruct Hin as [_ Hp]. simpl in Hp.
      apply scan_anchored_later. lia.
Qed.

Lemma search_anchored s : search pt s = first_match pt s.
Proof.
  unfold search. rewrite matches_anchored. now destruct (first_match pt s).
Qed.

Lemma findall_anchored s :
  findall pt s =
  match first_match pt s with Some m => [item_of pt m] | None => [] end.
Proof.
  unfold findall. rewrite matches_anchored. now destruct (first_match pt s).
Qed.

End Anchored.

(** * What [conditional_match] decides

    The second group of a two-level pattern is the session directory
    ([ses-<label>]), the third the session token of the file name with its
    leading underscore ([_ses-<label>]). *)

Lemma conditional_match_accepts pt path self :
  anchored (rx pt) = true -> 3 <= ngroups pt ->
  conditional_match pt path self = (Ok (accepts pt path), self).
Proof.
  intros Ha Hn. unfold conditional_match, accepts.
  rewrite findall_anchored by exact Ha.
  destruct (first_match pt path) as [m|]; [|reflexivity].
  unfold item_of. destruct (ngroups pt) as [|[|[|n]]]; try lia.
  change (seq 1 (S (S (S n)))) with (1 :: 2 :: 3 :: seq 4 n).
  unfold session_consistent. simpl map. cbn.
  destruct ((group_text (caps (snd m)) 2 =? str_tail (group_text (caps (snd m)) 3))
            || str_is_empty (group_text (caps (snd m)) 2)); reflexivity.
Qed.

(** * The compiled patterns *)

Lemma func_top_re_ok : compile func_top_pat = Ok func_top_re.
Proof. vm_compute. reflexivity. Qed.
Lemma anat_top_re_ok ia :
  compile (anat_top_pat (anat_suffixes (init ia))) = Ok anat_top_re.
Proof. vm_compute. reflexivity. Qed.
Lemma dwi_top_re_ok : compile dwi_top_pat = Ok dwi_top_re.
Proof. vm_compute. reflexivity. Qed.
Lemma multi_dir_fieldmap_re_ok :
  compile multi_dir_fieldmap_pat = Ok multi_dir_fieldmap_re.
Proof. vm_compute. reflexivity. Qed.
Lemma other_top_files_re_ok : compile other_top_files_pat = Ok other_top_files_re.
Proof. vm_compute. reflexivity. Qed.
Lemma associated_data_re_ok : compile associated_data_pat = Ok associated_data_re.
Proof. vm_compute. reflexivity. Qed.
Lemma phenotypic_re_ok : compile phenotypic_pat = Ok phenotypic_re.
Proof. vm_compute. reflexivity. Qed.
Lemma scans_re_ok : compile scans_pat = Ok scans_re.
Proof. vm_compute. reflexivity. Qed.
Lemma func_ses_re_ok : compile func_ses_pat = Ok func_ses_re.
Proof. vm_compute. reflexivity. Qed.
Lemma anat_ses_re_ok ia :
  compile (anat_ses_pat (anat_suffixes (init ia))) = Ok anat_ses_re.
Proof. vm_compute. reflexivity. Qed.
Lemma dwi_ses_re_ok : compile dwi_ses_pat = Ok dwi_ses_re.
Proof. vm_compute. reflexivity. Qed.
Lemma sessions_re_ok : compile sessions_pat = Ok sessions_re.
Proof. vm_compute. reflexivity. Qed.
Lemma anat_re_ok ia : compile (anat_pat (anat_suffixes (init ia))) = Ok anat_re.
Proof. vm_compute. reflexivity. Qed.
Lemma dwi_re_ok : compile dwi_pat = Ok dwi_re.
Proof. vm_compute. reflexivity. Qed.
Lemma field_map_re_ok : compile field_map_pat = Ok field_map_re.
Proof. vm_compute. reflexivity. Qed.
Lemma func_re_ok : compile func_pat = Ok func_re.
Proof. vm_compute. reflexivity. Qed.
Lemma beh_re_ok : compile beh_pat = Ok beh_re.
Proof. vm_compute. reflexivity. Qed.
Lemma cont_re_ok : compile cont_pat = Ok cont_re.
Proof. vm_compute. reflexivity. Qed.

(** * The rules as functions of the path

    What each method returns on a validator built by [init]. *)

Lemma bind_compile {B} pat pt (f : pattern -> M B) self :
  compile pat = Ok pt -> bind (re_compile pat) f self = f pt self.
Proof. intros E. unfold bind, re_compile, lift. now rewrite E. Qed.

Lemma bind_attr {A B} (g : BIDSValidator -> A) (f : A -> M B) self :
  bind (attr g) f self = f (g self) self.
Proof. reflexivity. Qed.

Lemma bind_conditional_match {B} pt path (f : bool -> M B) self :
  anchored (rx pt) = true -> 3 <= ngroups pt ->
  bind (conditional_match pt path) f self = f (accepts pt path) self.
Proof.
  intros Ha Hn. unfold bind. now rewrite conditional_match_accepts.
Qed.

Ltac run_cm :=
  rewrite bind_conditional_match by (try reflexivity; simpl; lia).

Ltac end_cm :=
  rewrite conditional_match_accepts by (try reflexivity; simpl; lia).

Lemma is_top_level_run ia path :
  is_top_level path (init ia) = (Ok (top_level_b path), init ia).
Proof.
  unfold is_top_level.
  rewrite (@bind_compile _ _ _ _ _ func_top_re_ok), bind_attr.
  rewrite (@bind_compile _ _ _ _ _ (anat_top_re_ok ia)).
  rewrite (@bind_compile _ _ _ _ _ dwi_top_re_ok).
  rewrite (@bind_compile _ _ _ _ _ multi_dir_fieldmap_re_ok).
  rewrite (@bind_compile _ _ _ _ _ other_top_files_re_ok).
  rewrite !search_anchored by reflexivity. reflexivity.
Qed.

Lemma is_associated_data_run ia path :
  is_associated_data path (init ia) = (Ok (associated_data_b ia path), init ia).
Proof.
  unfold is_associated_data. rewrite bind_attr.
  destruct ia; [|reflexivity].
  change (negb (index_associated (init true))) with false. cbv iota.
  rewrite (@bind_compile _ _ _ _ _ associated_data_re_ok).
  rewrite search_anchored by reflexivity. reflexivity.
Qed.

Lemma is_phenotypic_run ia path :
  is_phenotypic path (init ia) = (Ok (phenotypic_b path), init ia).
Proof.
  unfold is_phenotypic. rewrite (@bind_compile _ _ _ _ _ phenotypic_re_ok).
  rewrite search_anchored by reflexivity. reflexivity.
Qed.

Lemma is_session_level_run ia path :
  is_session_level path (init ia) = (Ok (session_level_b path), init ia).
Proof.
  unfold is_session_level.
  rewrite (@bind_compile _ _ _ _ _ scans_re_ok), (@bind_compile _ _ _ _ _ func_ses_re_ok).
  rewrite bind_attr, (@bind_compile _ _ _ _ _ (anat_ses_re_ok ia)).
  rewrite (@bind_compile _ _ _ _ _ dwi_ses_re_ok).
  do 4 run_cm. reflexivity.
Qed.

Lemma is_subject_level_run ia path :
  is_subject_level path (init ia) = (Ok (subject_level_b path), init ia).
Proof.
  unfold is_subject_level. rewrite (@bind_compile _ _ _ _ _ sessions_re_ok).
  rewrite search_anchored by reflexivity. reflexivity.
Qed.

Lemma is_anat_run ia path :
  is_anat path (init ia) = (Ok (accepts anat_re path), init ia).
Proof.
  unfold is_anat. rewrite bind_attr, (@bind_compile _ _ _ _ _ (anat_re_ok ia)).
  now end_cm.
Qed.

Lemma is_dwi_run ia path :
  is_dwi path (init ia) = (Ok (accepts dwi_re path), init ia).
Proof. unfold is_dwi. rewrite (@bind_compile _ _ _ _ _ dwi_re_ok). now end_cm. Qed.

Lemma is_field_map_run ia path :
  is_field_map path (init ia) = (Ok (accepts field_map_re path), init ia).
Proof.
  unfold is_field_map. rewrite (@bind_compile _ _ _ _ _ field_map_re_ok). now end_cm.
Qed.

Lemma is_func_run ia path :
  is_func path (init ia) = (Ok (accepts func_re path), init ia).
Proof. unfold is_func. rewrite (@bind_compile _ _ _ _ _ func_re_ok). now end_cm. Qed.

Lemma is_behavioral_run ia path :
  is_behavioral path (init ia) = (Ok (accepts beh_re path), init ia).
Proof. unfold is_behavioral. rewrite (@bind_compile _ _ _ _ _ beh_re_ok). now end_cm. Qed.

Lemma is_cont_run ia path :
  is_cont path (init ia) = (Ok (accepts cont_re path), init ia).
Proof. unfold is_cont. rewrite (@bind_compile _ _ _ _ _ cont_re_ok). now end_cm. Qed.

Lemma bind_run {A B} (m : M A) (f : A -> M B) a self :
  m self = (Ok a, self) -> bind m f self = f a self.
Proof. intros E. unfold bind. now rewrite E. Qed.

Lemma is_bids_run ia path :
  is_bids path (init ia) = (Ok (bids_b ia path), init ia).
Proof.
  unfold is_bids.
  rewrite (@bind_run _ _ _ _ _ _ (is_top_level_run ia path)).
  rewrite (@bind_run _ _ _ _ _ _ (is_associated_data_run ia path)).
  rewrite (@bind_run _ _ _ _ _ _ (is_session_level_run ia path)).
  rewrite (@bind_run _ _ _ _ _ _ (is_subject_level_run ia path)).
  rewrite (@bind_run _ _ _ _ _ _ (is_anat_run ia path)).
  rewrite (@bind_run _ _ _ _ _ _ (is_dwi_run ia path)).
  rewrite (@bind_run _ _ _ _ _ _ (is_func_run ia path)).
  rewrite (@bind_run _ _ _ _ _ _ (is_behavioral_run ia path)).
  rewrite (@bind_run _ _ _ _ _ _ (is_cont_run ia path)).
  rewrite (@bind_run _ _ _ _ _ _ (is_field_map_run ia path)).
  rewrite (@bind_run _ _ _ _ _ _ (is_phenotypic_run ia path)).
  reflexivity.
Qed.

(** * Reading a match back into the shape of the path *)

Lemma first_match_in pt s m :
  first_match pt s = Some m -> In m (mt (rx pt) (MState 0 s [])).
Proof.
  unfold first_match. destruct (mt (rx pt) (MState 0 s [])); simpl;
    [discriminate | intros H; injection H as ->; now left].
Qed.

Lemma first_match_none pt s :
  (forall c st', ~ In (c, st') (mt (rx pt) (MState 0 s []))) ->
  first_match pt s = None.
Proof.
  unfold first_match. destruct (mt (rx pt) (MState 0 s [])) as [|[c st'] l];
    [reflexivity|]. intros H. exfalso. apply (H c st'). now left.
Qed.

Lemma first_match_some pt s :
  (exists m, In m (mt (rx pt) (MState 0 s []))) ->
  exists m, first_match pt s = Some m.
Proof.
  unfold first_match. destruct (mt (rx pt) (MState 0 s [])) as [|m l].
  - intros (m & []).
  - intros _. exists m. reflexivity.
Qed.

Lemma string_cons_inj a b (s t : string) :
  String a s = String b t -> a = b /\ s = t.
Proof. intros H. injection H as -> ->. auto. Qed.

(** Solve or use an equation between the text at hand and what a step
    read. *)
Ltac use_text_eq E :=
  cbn [append rest pos caps] in E;
  first
    [ discriminate E
    | match type of E with
      | ?x = _ => is_var x; subst x
      | _ = ?y => is_var y; subst y
      | String _ _ = String _ _ =>
          let Ea := fresh "Ea" in
          apply string_cons_inj in E; destruct E as [Ea E];
          match type of Ea with
          | ?u = ?u => clear Ea
          | ?u = _ => is_var u; subst u
          | _ = ?v => is_var v; subst v
          | _ => idtac
          end;
          use_text_eq E
      | ?a ++ _ = ?a ++ _ => apply append_inv_head in E; use_text_eq E
      | _ => idtac
      end ].

(** A label followed by a delimiter, read against a label followed by a
    delimiter. *)
Ltac resolve_label :=
  match goal with
  | E : ?S ++ String ?d ?r = ?c ++ String ?d' ?r',
    HS : str_all ?f ?S = true, Hc : str_all ?f ?c = true |- _ =>
      let H := fresh "H" in
      assert (H : f d = false) by reflexivity;
      let H' := fresh "H" in
      assert (H' : f d' = false) by reflexivity;
      let U := fresh "U" in
      destruct (run_split_unique f S c r r' d d' HS Hc H H' E) as (U & _ & ?);
      clear E H H'; subst c; try subst r'
  end.

(** Read [H : In (c, st') (mt r st)] back, node by node, left to right. *)
Ltac inv_mt H :=
  cbn [append rest pos caps] in H;
  lazymatch type of H with
  | In (?c, ?st') (mt REmpty _) =>
      apply in_mt_empty in H; destruct H as [? ?]; subst c; subst st'
  | In (?c, ?st') (mt (RChar (CLit _)) (MState _ _ _)) =>
      let E := fresh "E" in
      apply in_mt_lit in H; destruct H as (? & E & ? & ?);
      subst c; subst st'; use_text_eq E; try resolve_label
  | In (?c, ?st') (mt (RChar _) (MState _ _ _)) =>
      let E := fresh "E" in let Hm := fresh "Hm" in
      apply in_mt_char in H; destruct H as (? & ? & E & Hm & ? & ?);
      subst c; subst st'; use_text_eq E
  | In (?c, ?st') (mt (RRepeat _ _) (MState _ _ _)) =>
      let E := fresh "E" in
      let Hall := fresh "Hall" in let Hlen := fresh "Hlen" in
      apply in_mt_repeat in H; destruct H as (? & E & Hall & Hlen & ?);
      subst st'; use_text_eq E
  | In (?c, ?st') (mt RBol (MState _ _ _)) =>
      let E := fresh "E" in
      apply in_mt_bol in H; destruct H as (E & ? & ?);
      subst c; subst st'; try discriminate E
  | In (?c, ?st') (mt REol (MState _ _ _)) =>
      let E := fresh "E" in
      apply in_mt_eol in H; destruct H as (E & ? & ?);
      subst c; subst st';
      try solve [destruct E as [E|E]; discriminate E]
  | In (?c, _) (mt (RCat _ _) _) =>
      let H1 := fresh "H" in let H2 := fresh "H" in
      apply in_mt_cat in H; destruct H as (? & ? & ? & H1 & H2 & ?);
      subst c; inv_mt H1; inv_mt H2
  | In _ (mt (RAlt _ _) _) =>
      apply in_mt_alt in H; destruct H as [H|H]; inv_mt H
  | In (?c, ?st') (mt (ROpt _) _) =>
      apply in_mt_opt in H; destruct H as [H|[? ?]];
      [inv_mt H | subst c; subst st']
  | In (_, ?st') (mt (RGroup _ _) _) =>
      let E := fresh "E" in
      apply in_mt_group in H; destruct H as (? & H & E);
      inv_mt H; cbn [append rest pos caps] in E;
      rewrite ?append_nil_r in E; subst st'
  | In (?c, ?st') (mt (RBackref _) (MState _ _ _)) =>
      let E := fresh "E" in let Hc := fresh "Hc" in
      apply in_mt_backref in H; destruct H as (? & Hc & E & ?);
      subst st'; cbn in Hc;
      first [ discriminate Hc
            | injection Hc as Hc; subst c; use_text_eq E ]
  | _ => idtac
  end.

Lemma prefix_nil s : prefix "" s = true.
Proof. destruct s; reflexivity. Qed.

(** ** The associated-data pattern *)

Lemma associated_match_under path :
  found (first_match associated_data_re path) = true ->
  under_associated path = true.
Proof.
  destruct (first_match associated_data_re path) as [[c st']|] eqn:E;
    [intros _ | discriminate].
  apply first_match_in in E. unfold associated_data_re, rx in E.
  inv_mt E.
  all: unfold under_associated; cbn; rewrite prefix_nil; reflexivity.
Qed.

(** ** Labels and the shape subject-scoped rules accept *)

Lemma is_label_intro s :
  str_all (cset_mem alnum) s = true -> 1 <= String.length s ->
  is_label s = true.
Proof.
  intros H Hl. unfold is_label. rewrite H. destruct s; simpl in *; [lia | reflexivity].
Qed.

Lemma is_label_elim s :
  is_label s = true ->
  str_all (cset_mem alnum) s = true /\ 1 <= String.length s.
Proof.
  unfold is_label. intros H. apply andb_prop in H. destruct H as [H1 H2].
  split; [exact H1|]. destruct s; simpl in *; [discriminate | lia].
Qed.

Ltac cut_after_subject E :=
  match type of E with
  | context [RCat (RBackref 1) ?K] =>
      let k := fresh "K" in
      let Hk := fresh "HK" in
      remember K as k eqn:Hk in E; clear Hk
  end.

Lemma accepts_in pt path :
  accepts pt path = true ->
  exists m, In m (mt (rx pt) (MState 0 path [])).
Proof.
  unfold accepts. destruct (first_match pt path) as [m|] eqn:E;
    [|discriminate].
  intros _. exists m. now apply first_match_in.
Qed.

Ltac prove_shape x ses md t :=
  exists x, ses, md, t;
  split; [apply is_label_intro; assumption|];
  split; [first [ now left
                | right; eexists; split;
                  [apply is_label_intro; eassumption | reflexivity] ]|];
  split; [simpl; auto 10|];
  cbn [append]; rewrite ?append_assoc; cbn [append]; reflexivity.

Ltac finish_shape md :=
  rewrite ?append_nil_r in *;
  match goal with
  | H : In _ (mt _ (MState _ ?t _))
    |- subject_shape
         (String "/" (String "s" (String "u" (String "b" (String "-"
            (?x ++ String "/" (String "s" (String "e" (String "s"
               (String "-" (?y ++ String "/" _))))))))))) =>
      prove_shape x ("ses-" ++ y ++ "/") md t
  | H : In _ (mt _ (MState _ ?t _))
    |- subject_shape
         (String "/" (String "s" (String "u" (String "b" (String "-"
            (?x ++ String "/" _)))))) =>
      prove_shape x "" md t
  end.

Ltac shape_of pt md :=
  let H := fresh "H" in
  intros H; apply accepts_in in H; destruct H as ([? ?] & H);
  unfold pt, rx in H; cut_after_subject H; inv_mt H; finish_shape md.

Lemma anat_shape path : accepts anat_re path = true -> subject_shape path.
Proof. shape_of anat_re "anat/". Qed.

Lemma dwi_shape path : accepts dwi_re path = true -> subject_shape path.
Proof. shape_of dwi_re "dwi/". Qed.

Lemma field_map_shape path :
  accepts field_map_re path = true -> subject_shape path.
Proof. shape_of field_map_re "fmap/". Qed.

Lemma func_shape path : accepts func_re path = true -> subject_shape path.
Proof. shape_of func_re "func/". Qed.

Lemma beh_shape path : accepts beh_re path = true -> subject_shape path.
Proof. shape_of beh_re "beh/". Qed.

Lemma cont_shape path : accepts cont_re path = true -> subject_shape path.
Proof.
  intros H; apply accepts_in in H; destruct H as ([? ?] & H).
  unfold cont_re, rx in H; cut_after_subject H; inv_mt H;
    first [finish_shape "func/" | finish_shape "beh/"].
Qed.

Lemma scans_shape path : accepts scans_re path = true -> subject_shape path.
Proof. shape_of scans_re "". Qed.

Lemma func_ses_shape path :
  accepts func_ses_re path = true -> subject_shape path.
Proof. shape_of func_ses_re "". Qed.

Lemma anat_ses_shape path :
  accepts anat_ses_re path = true -> subject_shape path.
Proof. shape_of anat_ses_re "". Qed.

Lemma dwi_ses_shape path :
  accepts dwi_ses_re path = true -> subject_shape path.
Proof. shape_of dwi_ses_re "". Qed.

Lemma session_level_shape path :
  session_level_b path = true -> subject_shape path.
Proof.
  unfold session_level_b. intros H.
  apply orb_prop in H. destruct H as [H|H]; [|now apply dwi_ses_shape].
  apply orb_prop in H. destruct H as [H|H]; [|now apply anat_ses_shape].
  apply orb_prop in H. destruct H as [H|H]; [|now apply func_ses_shape].
  now apply scans_shape.
Qed.

Lemma subject_level_shape path :
  subject_level_b path = true -> subject_shape path.
Proof.
  unfold subject_level_b.
  destruct (first_match sessions_re path) as [[c st']|] eqn:E;
    [intros _ | discriminate].
  apply first_match_in in E. unfold sessions_re, rx in E.
  cut_after_subject E. inv_mt E. finish_shape "".
Qed.
(** ** Task tokens *)





Ltac no_match pt :=
  let H := fresh "H" in
  apply first_match_none; intros ? ? H; unfold pt, rx in H; inv_mt H.

Lemma accepts_none pt s : first_match pt s = None -> accepts pt s = false.
Proof. unfold accepts. now intros ->. Qed.

(** Turn every [first_match] of the goal that cannot succeed into [None]. *)
Ltac kill_first_matches :=
  repeat match goal with
  | |- context [first_match ?pt ?s] =>
      rewrite (@first_match_none pt s)
        by (let H := fresh "H" in
            intros ? ? H; unfold pt, rx in H; inv_mt H)
  end.





(** * Building a match *)

(** Prove [In (?c, ?st') (mt r st)] node by node, left to right, taking the
    first alternative that works. *)
Ltac build_mt :=
  cbn [append rest pos caps];
  lazymatch goal with
  | |- In _ (mt REmpty _) => apply in_mt_empty; split; reflexivity
  | |- In _ (mt (RChar (CLit _)) _) =>
      apply in_mt_lit; eexists; split; [reflexivity | split; reflexivity]
  | |- In _ (mt (RChar _) _) =>
      apply in_mt_char; do 2 eexists;
      split; [reflexivity | split; [reflexivity | split; reflexivity]]
  | |- In _ (mt (RRepeat _ _) _) =>
      apply in_mt_repeat; eexists;
      split; [reflexivity | split; [eassumption | split; [eassumption | reflexivity]]]
  | |- In _ (mt RBol _) =>
      apply in_mt_bol; split; [reflexivity | split; reflexivity]
  | |- In _ (mt REol _) =>
      apply in_mt_eol; split; [first [now left | now right] | split; reflexivity]
  | |- In _ (mt (RCat _ _) _) =>
      apply in_mt_cat; do 3 eexists;
      split; [build_mt | split; [build_mt | reflexivity]]
  | |- In _ (mt (RAlt _ _) _) =>
      apply in_mt_alt; first [left; build_mt | right; build_mt]
  | |- In _ (mt (ROpt _) _) =>
      apply in_mt_opt; first [left; build_mt | right; split; reflexivity]
  | |- In _ (mt (RGroup _ _) _) =>
      apply in_mt_group; eexists;
      split; [build_mt | cbn [append rest pos caps]; reflexivity]
  | |- In _ (mt (RBackref _) _) =>
      apply in_mt_backref; eexists;
      split; [cbn; reflexivity
             | split; [cbn [append]; rewrite ?append_assoc; cbn [append]; reflexivity
                      | reflexivity]]
  end.

Lemma accepts_all pt path :
  (exists m, In m (mt (rx pt) (MState 0 path []))) ->
  (forall c st', In (c, st') (mt (rx pt) (MState 0 path [])) ->
                 session_consistent (c, st') = true) ->
  accepts pt path = true.
Proof.
  intros Hex Hall. unfold accepts.
  destruct (first_match_some pt path Hex) as ([c st'] & E). rewrite E.
  apply Hall. now apply first_match_in.
Qed.

Lemma bids_b_anat ia path : accepts anat_re path = true -> bids_b ia path = true.
Proof.
  intros H. unfold bids_b. rewrite H, !orb_true_r. reflexivity.
Qed.

(** ** Session in the directory and in the file name *)

Lemma T1w_same_session S A :
  is_label S = true -> is_label A = true ->
  accepts anat_re (T1w_path S A A) = true.
Proof.
  intros HS HA.
  apply is_label_elim in HS, HA. destruct HS as [HS HSl], HA as [HA HAl].
  unfold alnum in HS, HA. unfold T1w_path.
  rewrite ?append_assoc. cbn [append].
  apply accepts_all.
  - eexists (_, _). unfold anat_re, rx. build_mt.
  - intros c st' H. unfold anat_re, rx in H. inv_mt H.
    unfold session_consistent;
      cbn [snd caps group_text cap_lookup Nat.eqb str_tail].
    now rewrite String.eqb_refl.
Qed.

Lemma T1w_other_session ia S A B :
  is_label S = true -> is_label A = true -> is_label B = true -> A <> B ->
  bids_b ia (T1w_path S A B) = false.
Proof.
  intros HS HA HB Hne.
  apply is_label_elim in HS, HA, HB.
  destruct HS as [HS _], HA as [HA _], HB as [HB _].
  unfold alnum in HS, HA, HB. unfold T1w_path.
  rewrite ?append_assoc. cbn [append].
  match goal with
  | |- bids_b _ ?p = false =>
      assert (Hanat : first_match anat_re p = None)
  end.
  { apply first_match_none. intros c st' H. unfold anat_re, rx in H.
    inv_mt H; congruence. }
  unfold bids_b, top_level_b, associated_data_b, session_level_b,
    subject_level_b, phenotypic_b, accepts.
  rewrite Hanat. kill_first_matches. cbn [found].
  rewrite !orb_false_r, andb_false_r. reflexivity.
Qed.

(** * The rule table *)

Lemma rule_runs ia path r :
  In r rules -> exists b, r path (init ia) = (Ok b, init ia).
Proof.
  unfold rules. cbn [In].
  intros [<-|[<-|[<-|[<-|[<-|[<-|[<-|[<-|[<-|[<-|[<-|[]]]]]]]]]]]];
    eexists.
  - exact (is_top_level_run ia path).
  - exact (is_associated_data_run ia path).
  - exact (is_session_level_run ia path).
  - exact (is_subject_level_run ia path).
  - exact (is_anat_run ia path).
  - exact (is_dwi_run ia path).
  - exact (is_func_run ia path).
  - exact (is_behavioral_run ia path).
  - exact (is_cont_run ia path).
  - exact (is_field_map_run ia path).
  - exact (is_phenotypic_run ia path).
Qed.

Lemma any_rule_runs v path rs :
  (forall r, In r rs -> exists b, r path v = (Ok b, v)) ->
  any_rule rs path v = (Ok (existsb (fun r => says_true (r path v)) rs), v).
Proof.
  induction rs as [|r rs IH]; intros H; [reflexivity|].
  cbn [any_rule existsb].
  destruct (H r) as (b & Hb); [now left|].
  rewrite (@bind_run _ _ _ _ _ _ Hb).
  rewrite (@bind_run _ _ _ _ _ _ (IH (fun r' Hr => H r' (or_intror Hr)))).
  unfold says_true at 1. rewrite Hb. cbn [fst ret]. now destruct b.
Qed.

Lemma existsb_permutation {A} (f : A -> bool) l l' :
  Permutation l l' -> existsb f l = existsb f l'.
Proof.
  induction 1; cbn [existsb].
  - reflexivity.
  - now rewrite IHPermutation.
  - now rewrite !orb_assoc, (orb_comm (f y)).
  - congruence.
Qed.

Lemma is_bids_any_rule ia path :
  is_bids path (init ia) = any_rule rules path (init ia).
Proof.
 
  rewrite is_bids_run, any_rule_runs by (intros r; apply rule_runs).
  unfold rules. cbn [existsb]. unfold says_true.
  rewrite is_top_level_run, is_associated_data_run, is_session_level_run,
    is_subject_level_run, is_anat_run, is_dwi_run, is_func_run,
    is_behavioral_run, is_cont_run, is_field_map_run, is_phenotypic_run.
  cbn [fst]. unfold bids_b. f_equal. f_equal.
  destruct (top_level_b path), (associated_data_b ia path),
    (session_level_b path), (subject_level_b path), (accepts anat_re path),
    (accepts dwi_re path), (accepts func_re path), (accepts beh_re path),
    (accepts cont_re path), (accepts field_map_re path), (phenotypic_b path);
    reflexivity.
Qed.

Lemma any_rule_true v path rs :
  (forall r, In r rs -> exists b, r path v = (Ok b, v)) ->
  any_rule rs path v = (Ok true, v) <->
  exists r, In r rs /\ r path v = (Ok true, v).
Proof.
  intros Hrun. rewrite any_rule_runs by exact Hrun. split.
  - intros H. injection H as H. apply existsb_exists in H.
    destruct H as (r & Hr & Ht). exists r. split; [exact Hr|].
    destruct (Hrun r Hr) as (b & Hb). unfold says_true in Ht.
    rewrite Hb in *. cbn [fst] in Ht. now destruct b.
  - intros (r & Hr & Ht). f_equal. f_equal. apply existsb_exists.
    exists r. split; [exact Hr|]. unfold says_true. now rewrite Ht.
Qed.

(** ** Paths under the associated-data directories *)

Lemma prefix_split p : forall s, prefix p s = true -> exists r, s = p ++ r.
Proof.
  induction p as [|a p IH]; intros s H.
  - exists s. reflexivity.
  - destruct s as [|b s]; [discriminate|]. cbn [prefix] in H.
    destruct (ascii_dec a b) as [->|]; [|discriminate].
    destruct (IH _ H) as (r & ->). exists r. reflexivity.
Qed.

Lemma under_associated_split path :
  under_associated path = true ->
  exists d r, In d ["code"; "derivatives"; "sourcedata"; "stimuli"] /\
              path = "/" ++ d ++ "/" ++ r.
Proof.
  unfold under_associated. intros H.
  apply orb_prop in H. destruct H as [H|H];
    [|apply prefix_split in H; destruct H as (r & ->);
      exists "stimuli", r; cbn; auto 6].
  apply orb_prop in H. destruct H as [H|H];
    [|apply prefix_split in H; destruct H as (r & ->);
      exists "sourcedata", r; cbn; auto 6].
  apply orb_prop in H. destruct H as [H|H];
    apply prefix_split in H; destruct H as (r & ->);
    [exists "code", r | exists "derivatives", r]; cbn; auto 6.
Qed.

Ltac reject_all :=
  unfold bids_b, top_level_b, associated_data_b, session_level_b,
    subject_level_b, phenotypic_b, accepts;
  cbn [andb]; kill_first_matches; reflexivity.

(** With [index_associated] false nothing under the associated-data
    directories is accepted. *)
Lemma associated_rejected_when_off path :
  under_associated path = true -> bids_b false path = false.
Proof.
  intros H. apply under_associated_split in H.
  destruct H as (d & r & Hd & ->). cbn [In] in Hd.
  destruct Hd as [<-|[<-|[<-|[<-|[]]]]]; cbn [append]; reject_all.
Qed.

(** With [index_associated] true a path under the associated-data
    directories is accepted when its remainder holds no line break. *)
Lemma associated_accepted_single_line path :
  under_associated path = true ->
  str_all (fun a => negb (Ascii.eqb a newline)) path = true ->
  bids_b true path = true.
Proof.
  intros H Hnl. apply under_associated_split in H.
  destruct H as (d & r & Hd & ->).
  assert (Hr : str_all (cset_mem CDot) r = true).
  { rewrite !str_all_append in Hnl.
    repeat (apply andb_prop in Hnl; destruct Hnl as [_ Hnl]). exact Hnl. }
  assert (Hl : 0 <= String.length r) by lia.
  assert (Ha : found (first_match associated_data_re ("/" ++ d ++ "/" ++ r))
               = true).
  { destruct (@first_match_some associated_data_re ("/" ++ d ++ "/" ++ r))
      as (m & ->); [|reflexivity].
    rewrite <- (append_nil_r r). cbn [In] in Hd.
    destruct Hd as [<-|[<-|[<-|[<-|[]]]]]; cbn [append];
      eexists (_, _); unfold associated_data_re, rx; build_mt. }
  unfold bids_b, associated_data_b. rewrite Ha. cbn [andb].
  rewrite orb_true_r. reflexivity.
Qed.

(** * The claims *)

(** C3.  [is_bids] is the disjunction of the eleven category rules: on every
    path it returns what evaluating the eleven rules and or-ing their answers
    returns, it returns [True] exactly when some rule does, and evaluating
    the rules in any other order gives the same result. *)
Theorem is_bids_is_disjunction (ia : bool) (path : string)
  (rs : list (string -> M bool)) :
  Permutation rules rs ->
  any_rule rs path (init ia) = is_bids path (init ia) /\
  is_bids path (init ia) =
    (Ok (existsb (fun r => says_true (r path (init ia))) rules), init ia) /\
  (is_bids path (init ia) = (Ok true, init ia) <->
   exists r, In r rules /\ r path (init ia) = (Ok true, init ia)).
Proof.
  intros Hp.
  assert (Hrun : forall r, In r rules ->
                           exists b, r path (init ia) = (Ok b, init ia))
    by (intros r; apply rule_runs).
  assert (Hrs : forall r, In r rs ->
                          exists b, r path (init ia) = (Ok b, init ia)).
  { intros r Hr. apply Hrun. eapply Permutation_in; [|exact Hr].
    now apply Permutation_sym. }
  rewrite is_bids_any_rule. generalize dependent rules. intros rules0 Hp Hrun.
  split; [|split].
  - rewrite !any_rule_runs by assumption.
    now rewrite (@existsb_permutation _ _ _ _ Hp).
  - now apply any_rule_runs.
  - now apply any_rule_true.
Qed.

Lemma is_bids_is_disjunction_witness :
  any_rule (rev rules) "/participants.tsv" (init true) =
  is_bids "/participants.tsv" (init true).
Proof.
  exact (proj1 (@is_bids_is_disjunction true "/participants.tsv" (rev rules)
                  (Permutation_rev rules))).
Defined.

Lemma session_consistent_iff c st' :
  session_consistent (c, st') = true <->
  group_text (caps st') 2 = "" \/
  group_text (caps st') 2 = str_tail (group_text (caps st') 3).
Proof.
  unfold session_consistent. cbn [snd]. rewrite orb_true_iff, String.eqb_eq.
  destruct (group_text (caps st') 2); cbn [str_is_empty]; intuition congruence.
Qed.

Lemma accepts_decides pt path :
  match session_captures pt path with
  | Some (dir, file) => accepts pt path = true <-> dir = "" \/ dir = str_tail file
  | None => accepts pt path = false
  end.
Proof.
  unfold session_captures, accepts.
  destruct (first_match pt path) as [[c st']|]; [|reflexivity].
  cbn [snd]. apply session_consistent_iff.
Qed.

Lemma ok_true_iff (b : bool) (v : BIDSValidator) :
  (Ok b, v) = (Ok true, v) <-> b = true.
Proof. split; [intros H; now injection H | now intros ->]. Qed.

(** C1 (as stated, it fails).  The anatomical pattern matches
    [/sub-01/ses-test/anat/sub-01_T1w.nii.gz] with the session directory
    [ses-test] and no session token in the file name, and yet [is_anat] and
    [is_bids] return [False]: a session that the file name omits is not
    accepted. *)
Lemma omitted_file_session_rejected :
  session_captures anat_re "/sub-01/ses-test/anat/sub-01_T1w.nii.gz"
    = Some ("ses-test", "") /\
  is_anat "/sub-01/ses-test/anat/sub-01_T1w.nii.gz" default_validator
    = (Ok false, default_validator) /\
  is_bids "/sub-01/ses-test/anat/sub-01_T1w.nii.gz" default_validator
    = (Ok false, default_validator).
Proof. vm_compute. auto. Qed.

Lemma accepts_iff pt path :
  accepts pt path = true <->
  exists dir file, session_captures pt path = Some (dir, file) /\
                   (dir = "" \/ dir = str_tail file).
Proof.
  generalize (accepts_decides pt path).
  destruct (session_captures pt path) as [[d f]|].
  - intros H. rewrite H. split.
    + intros Hd. exists d, f. auto.
    + intros (d' & f' & E & Hd). now injection E as <- <-.
  - intros ->. split; [discriminate|]. intros (d' & f' & E & _).
    discriminate.
Qed.

Lemma some_accepts_iff pts path :
  existsb (fun pt => accepts pt path) pts = true <->
  exists pt dir file,
    In pt pts /\ session_captures pt path = Some (dir, file) /\
    (dir = "" \/ dir = str_tail file).
Proof.
  rewrite existsb_exists. split.
  - intros (pt & Hin & H). apply accepts_iff in H.
    destruct H as (d & f & E & Hd). exists pt, d, f. auto.
  - intros (pt & d & f & Hin & E & Hd). exists pt. split; [exact Hin|].
    apply accepts_iff. eauto.
Qed.

Lemma two_level_rule_runs ia path rule pts :
  In (rule, pts) two_level_rules ->
  rule path (init ia)
  = (Ok (existsb (fun pt => accepts pt path) pts), init ia).
Proof.
  unfold two_level_rules. cbn [In].
  intros [E|[E|[E|[E|[E|[E|[E|[]]]]]]]]; injection E as <- <-;
    cbn [existsb]; rewrite ?orb_false_r.
  - rewrite is_session_level_run. unfold session_level_b.
    now rewrite !orb_assoc.
  - apply is_anat_run.
  - apply is_dwi_run.
  - apply is_func_run.
  - apply is_behavioral_run.
  - apply is_cont_run.
  - apply is_field_map_run.
Qed.

(** C1 (amended).  For each rule with two-level patterns, [is_session_level]
    with its four among them: the rule accepts a path exactly when one of
    its patterns matches the path and the session directory that pattern
    captures is absent or equals the session token it captures in the file
    name, with the leading underscore stripped; when none matches, or none
    with such captures, the rule returns [False]. *)
Theorem two_level_rule_decides (ia : bool) (path : string)
  (rule : string -> M bool) (pts : list pattern) :
  In (rule, pts) two_level_rules ->
  exists b, rule path (init ia) = (Ok b, init ia) /\
    (b = true <->
     exists pt dir file,
       In pt pts /\ session_captures pt path = Some (dir, file) /\
       (dir = "" \/ dir = str_tail file)).
Proof.
  intros Hr. exists (existsb (fun pt => accepts pt path) pts). split.
  - now apply two_level_rule_runs.
  - apply some_accepts_iff.
Qed.

Lemma two_level_rule_decides_witness :
  exists b,
    is_session_level "/sub-01/ses-test/sub-01_ses-test_scans.tsv" (init true)
      = (Ok b, init true) /\
    (b = true <->
     exists pt dir file,
       In pt [scans_re; func_ses_re; anat_ses_re; dwi_ses_re] /\
       session_captures pt "/sub-01/ses-test/sub-01_ses-test_scans.tsv"
         = Some (dir, file) /\
       (dir = "" \/ dir = str_tail file)).
Proof.
  exact (@two_level_rule_decides true
           "/sub-01/ses-test/sub-01_ses-test_scans.tsv"
           is_session_level [scans_re; func_ses_re; anat_ses_re; dwi_ses_re]
           (or_introl eq_refl)).
Defined.

(** C2 (the code fails it).  In [/sub-01/ses-1/sub-01_ses-1T1w.json] the
    session directory has the label [1] and the session token of the file
    name the label [1T1w], and yet [is_session_level] and [is_bids] return
    [True]: the session-level patterns have no separator after the session
    token, so that [_ses-1] is read as the token and [T1w] as the suffix.
    The name with the two labels equal and the separator in place,
    [/sub-01/ses-1/sub-01_ses-1_T1w.json], is rejected. *)
Theorem differing_session_labels_accepted :
  dir_label "ses-" "/sub-01/ses-1/sub-01_ses-1T1w.json" = Some "1" /\
  file_label "ses-" "/sub-01/ses-1/sub-01_ses-1T1w.json" = Some "1T1w" /\
  is_session_level "/sub-01/ses-1/sub-01_ses-1T1w.json" default_validator
    = (Ok true, default_validator) /\
  is_bids "/sub-01/ses-1/sub-01_ses-1T1w.json" default_validator
    = (Ok true, default_validator) /\
  is_bids "/sub-01/ses-1/sub-01_ses-1_T1w.json" default_validator
    = (Ok false, default_validator).
Proof. vm_compute. auto 6. Qed.

Lemma path_sub_pat_unbalanced :
  compile path_sub_pat = Raise (ReError "unbalanced parenthesis").
Proof. vm_compute. reflexivity. Qed.

(** C4 (the code fails it).  [get_path_values] raises on every path: the
    subject pattern has a closing parenthesis too many, so [re.compile]
    raises before anything is matched. *)
Theorem get_path_values_raises (path : string) (self : BIDSValidator) :
  get_path_values path self
  = (Raise (ReError "unbalanced parenthesis"), self).
Proof.
  unfold get_path_values, bind, re_compile, lift.
  now rewrite path_sub_pat_unbalanced.
Qed.

(** C5 (the code fails it).  A path under [code/] with a line break inside
    its remainder is rejected also when associated data is indexed: the
    pattern's [.*] stops at the line break. *)
Theorem associated_path_with_line_break_rejected :
  under_associated ("/code/a" ++ String newline "b") = true /\
  is_associated_data ("/code/a" ++ String newline "b") (init true)
    = (Ok false, init true) /\
  is_bids ("/code/a" ++ String newline "b") (init true)
    = (Ok false, init true).
Proof. vm_compute. auto. Qed.

(** C6 (the code fails it).  [/sub-01/anat/sub-01_T1wXnii] ends with none of
    the anatomical suffix and extension pairs, and [is_anat] and [is_bids]
    accept it: the dot of the pattern before the extension is not escaped. *)
Theorem anat_accepts_without_extension_dot :
  existsb (fun e => ends_with e "/sub-01/anat/sub-01_T1wXnii") anat_endings
    = false /\
  is_anat "/sub-01/anat/sub-01_T1wXnii" default_validator
    = (Ok true, default_validator) /\
  is_bids "/sub-01/anat/sub-01_T1wXnii" default_validator
    = (Ok true, default_validator).
Proof. vm_compute. auto. Qed.



(** C8 (the code fails it).  In [/sub-01/sub-01T1w.json] the subject
    directory has the label [01] and the subject token of the file name the
    label [01T1w], and yet [is_session_level] and [is_bids] return [True]:
    the session-level patterns have no separator after the subject token.
    The name with the separator, [/sub-01/sub-01_T1w.json], is rejected, as
    is [/sub-01/anat/sub-02_T1w.nii.gz]. *)
Theorem differing_subject_labels_accepted :
  dir_label "sub-" "/sub-01/sub-01T1w.json" = Some "01" /\
  file_label "sub-" "/sub-01/sub-01T1w.json" = Some "01T1w" /\
  is_session_level "/sub-01/sub-01T1w.json" default_validator
    = (Ok true, default_validator) /\
  is_bids "/sub-01/sub-01T1w.json" default_validator
    = (Ok true, default_validator) /\
  is_bids "/sub-01/sub-01_T1w.json" default_validator
    = (Ok false, default_validator) /\
  is_bids "/sub-01/anat/sub-02_T1w.nii.gz" default_validator
    = (Ok false, default_validator).
Proof. vm_compute. auto 7. Qed.

(** ** Methods leave the object as it is *)

Lemma preserves_ret {A} (a : A) : preserves_self (ret a).
Proof. intros self. reflexivity. Qed.

Lemma preserves_lift {A} (r : result A) : preserves_self (lift r).
Proof. intros self. reflexivity. Qed.

Lemma preserves_attr {A} (g : BIDSValidator -> A) : preserves_self (attr g).
Proof. intros self. reflexivity. Qed.

Lemma preserves_bind {A B} (m : M A) (f : A -> M B) :
  preserves_self m -> (forall a, preserves_self (f a)) ->
  preserves_self (bind m f).
Proof.
  intros Hm Hf self. unfold bind. specialize (Hm self).
  destruct (m self) as [[a|e] self']; cbn [snd] in Hm; subst self'.
  - apply Hf.
  - reflexivity.
Qed.

Ltac preserves :=
  repeat lazymatch goal with
  | |- preserves_self (bind _ _) => apply preserves_bind; [|intros ?]
  | |- preserves_self (ret _) => apply preserves_ret
  | |- preserves_self (lift _) => apply preserves_lift
  | |- preserves_self (re_compile _) => apply preserves_lift
  | |- preserves_self (attr _) => apply preserves_attr
  | |- preserves_self (if ?b then _ else _) => destruct b
  | |- preserves_self (match ?x with _ => _ end) => destruct x
  end.

Lemma conditional_match_preserves pt path :
  preserves_self (conditional_match pt path).
Proof. unfold conditional_match. preserves. Qed.

Lemma is_bids_preserves path : preserves_self (is_bids path).
Proof.
  unfold is_bids.
  apply preserves_bind; [unfold is_top_level; preserves | intros ?].
  apply preserves_bind; [unfold is_associated_data; preserves | intros ?].
  apply preserves_bind;
    [unfold is_session_level; preserves; apply conditional_match_preserves
    | intros ?].
  apply preserves_bind; [unfold is_subject_level; preserves | intros ?].
  apply preserves_bind;
    [unfold is_anat; preserves; apply conditional_match_preserves | intros ?].
  apply preserves_bind;
    [unfold is_dwi; preserves; apply conditional_match_preserves | intros ?].
  apply preserves_bind;
    [unfold is_func; preserves; apply conditional_match_preserves | intros ?].
  apply preserves_bind;
    [unfold is_behavioral; preserves; apply conditional_match_preserves
    | intros ?].
  apply preserves_bind;
    [unfold is_cont; preserves; apply conditional_match_preserves | intros ?].
  apply preserves_bind;
    [unfold is_field_map; preserves; apply conditional_match_preserves
    | intros ?].
  apply preserves_bind; [unfold is_phenotypic; preserves | intros ?].
  apply preserves_ret.
Qed.

(** C9.  [is_bids] leaves the validator as it found it, whatever the
    validator and the path, so a second call on the same path runs on the
    same object and gives the same result; on a validator built by
    [__init__] that result is a boolean, fixed by the path and the
    [index_associated] flag. *)
Theorem is_bids_pure (self : BIDSValidator) (ia : bool) (path : string) :
  snd (is_bids path self) = self /\
  is_bids path (snd (is_bids path self)) = is_bids path self /\
  is_bids path (init ia) = (Ok (bids_b ia path), init ia) /\
  (b1 <- is_bids path ;; b2 <- is_bids path ;; ret (b1, b2)) (init ia)
  = (Ok (bids_b ia path, bids_b ia path), init ia).
Proof.
  assert (Hs : snd (is_bids path self) = self) by apply is_bids_preserves.
  split; [exact Hs|]. split; [now rewrite Hs|].
  split; [apply is_bids_run|].
  rewrite (@bind_run _ _ _ _ _ _ (is_bids_run ia path)).
  rewrite (@bind_run _ _ _ _ _ _ (is_bids_run ia path)).
  reflexivity.
Qed.

(** C10.  A path that does not begin with [/code/], [/derivatives/],
    [/sourcedata/] or [/stimuli/] gets the same answer from [is_bids]
    whether the validator was built with [index_associated] true or false:
    the associated-data rule rejects such a path under either setting, and
    no other rule depends on the flag. *)
Theorem is_bids_flag_irrelevant_outside_associated (path : string) :
  under_associated path = false ->
  fst (is_bids path (init true)) = fst (is_bids path (init false)) /\
  fst (is_associated_data path (init true)) = Ok false /\
  fst (is_associated_data path (init false)) = Ok false /\
  (forall rule, In rule other_rules ->
     fst (rule path (init true)) = fst (rule path (init false))).
Proof.
  intros Hu.
  assert (Ha : associated_data_b true path = false).
  { unfold associated_data_b. cbn [andb].
    destruct (found (first_match associated_data_re path)) eqn:E;
      [|reflexivity].
    apply associated_match_under in E. congruence. }
  assert (Hb : associated_data_b false path = false) by reflexivity.
  rewrite !is_bids_run, !is_associated_data_run. cbn [fst].
  unfold bids_b. rewrite Ha, Hb. repeat split.
  unfold other_rules. cbn [In].
  intros rule [<-|[<-|[<-|[<-|[<-|[<-|[<-|[<-|[<-|[<-|[]]]]]]]]]]].
  - now rewrite !is_top_level_run.
  - now rewrite !is_session_level_run.
  - now rewrite !is_subject_level_run.
  - now rewrite !is_anat_run.
  - now rewrite !is_dwi_run.
  - now rewrite !is_func_run.
  - now rewrite !is_behavioral_run.
  - now rewrite !is_cont_run.
  - now rewrite !is_field_map_run.
  - now rewrite !is_phenotypic_run.
Qed.

Lemma is_bids_flag_irrelevant_witness :
  fst (is_bids "/sub-01/anat/sub-01_T1w.nii.gz" (init true)) =
  fst (is_bids "/sub-01/anat/sub-01_T1w.nii.gz" (init false)).
Proof.
  exact (proj1 (@is_bids_flag_irrelevant_outside_associated
                  "/sub-01/anat/sub-01_T1w.nii.gz" eq_refl)).
Defined.

(** * Further properties of the rules *)

(** ** Every accepted path starts at the dataset root *)

Lemma rooted_match K path m :
  In m (mt (RCat RBol (RCat (RChar (CLit "/")) K)) (MState 0 path [])) ->
  exists r, path = "/" ++ r.
Proof.
  destruct m as [c st']. intros H.
  apply in_mt_cat in H. destruct H as (c1 & st1 & c2 & H1 & H2 & _).
  apply in_mt_bol in H1. destruct H1 as (_ & _ & ->).
  apply in_mt_cat in H2. destruct H2 as (c3 & st3 & c4 & H3 & _ & _).
  apply in_mt_lit in H3. destruct H3 as (r & -> & _). exists r. reflexivity.
Qed.

Lemma rooted_pattern pt path :
  (exists K, rx pt = RCat RBol (RCat (RChar (CLit "/")) K)) ->
  found (first_match pt path) = true \/ accepts pt path = true ->
  exists r, path = "/" ++ r.
Proof.
  intros (K & HK) H.
  assert (Hm : exists m, first_match pt path = Some m).
  { unfold accepts in H. destruct (first_match pt path) as [m|]; [eauto|].
    destruct H; discriminate. }
  destruct Hm as (m & Hm). apply first_match_in in Hm. rewrite HK in Hm.
  eapply rooted_match. exact Hm.
Qed.

Ltac rooted H :=
  lazymatch type of H with
  | found (first_match ?pt _) = true =>
      apply (@rooted_pattern pt); [eexists; reflexivity | left; exact H]
  | accepts ?pt _ = true =>
      apply (@rooted_pattern pt); [eexists; reflexivity | right; exact H]
  end.

Lemma bids_b_rooted ia path : bids_b ia path = true -> exists r, path = "/" ++ r.
Proof.
  unfold bids_b, top_level_b, associated_data_b, session_level_b,
    subject_level_b, phenotypic_b.
  intros H.
  repeat match type of H with
         | _ || _ = true => apply orb_prop in H; destruct H as [H|H]
         end;
    try (apply andb_prop in H; destruct H as [_ H]);
    try (rooted H; fail).
  apply existsb_exists in H. destruct H as (name & Hin & E).
  apply String.eqb_eq in E. subst name. cbn [fixed_top_level_names In] in Hin.
  repeat (destruct Hin as [<-|Hin]; [eexists; reflexivity|]). destruct Hin.
Qed.

(** X1.  A path [is_bids] accepts starts with a slash: every rule is
    anchored at the dataset root, so the empty path and relative paths are
    rejected (and no rule raises on them). *)
Theorem accepted_path_is_rooted (ia : bool) (path : string) :
  is_bids path (init ia) = (Ok true, init ia) ->
  exists r, path = "/" ++ r.
Proof.
  rewrite is_bids_run. intros H. apply ok_true_iff in H.
  now apply (bids_b_rooted ia).
Qed.

Lemma accepted_path_is_rooted_witness :
  exists r, "/participants.tsv" = "/" ++ r.
Proof.
  apply (@accepted_path_is_rooted true "/participants.tsv").
  vm_compute. reflexivity.
Defined.

(** ** The modality rules exclude each other *)

Lemma answers_but_cont_run ia path :
  map (fun r => says_true (r path (init ia))) rules_but_cont
  = answers_but_cont ia path.
Proof.
  unfold rules_but_cont, answers_but_cont. cbn [map]. unfold says_true.
  rewrite is_top_level_run, is_associated_data_run, is_session_level_run,
    is_subject_level_run, is_anat_run, is_dwi_run, is_func_run,
    is_behavioral_run, is_field_map_run, is_phenotypic_run.
  cbn [fst].
  destruct (top_level_b path), (associated_data_b ia path),
    (session_level_b path), (subject_level_b path), (accepts anat_re path),
    (accepts dwi_re path), (accepts func_re path), (accepts beh_re path),
    (accepts field_map_re path), (phenotypic_b path); reflexivity.
Qed.

(** From an accepted path to its shape, then every other pattern fails on
    that shape. *)
Ltac alone pt :=
  let H := fresh "H" in
  let Hs := fresh "Hs" in
  intros H; pose proof H as Hs;
  apply accepts_in in Hs; destruct Hs as ([? ?] & Hs);
  unfold pt, rx in Hs; cut_after_subject Hs; inv_mt Hs;
  rewrite ?append_nil_r in *;
  unfold answers_but_cont; rewrite H;
  unfold top_level_b, associated_data_b, session_level_b, subject_level_b,
    phenotypic_b, accepts;
  kill_first_matches; cbn [found]; rewrite ?andb_false_r; reflexivity.

Lemma anat_alone ia path :
  accepts anat_re path = true ->
  answers_but_cont ia path
  = [false; false; false; false; true; false; false; false; false; false].
Proof. alone anat_re. Qed.

Lemma dwi_alone ia path :
  accepts dwi_re path = true ->
  answers_but_cont ia path
  = [false; false; false; false; false; true; false; false; false; false].
Proof. alone dwi_re. Qed.

Lemma func_alone ia path :
  accepts func_re path = true ->
  answers_but_cont ia path
  = [false; false; false; false; false; false; true; false; false; false].
Proof. alone func_re. Qed.

Lemma beh_alone ia path :
  accepts beh_re path = true ->
  answers_but_cont ia path
  = [false; false; false; false; false; false; false; true; false; false].
Proof. alone beh_re. Qed.

Lemma field_map_alone ia path :
  accepts field_map_re path = true ->
  answers_but_cont ia path
  = [false; false; false; false; false; false; false; false; true; false].
Proof. alone field_map_re. Qed.

Lemma filter_length_map {A} (f : A -> bool) (l : list A) :
  length (filter f l) = length (filter (fun b => b) (map f l)).
Proof.
  induction l as [|a l IH]; [reflexivity|]. cbn [map filter].
  destruct (f a); cbn [length]; now rewrite IH.
Qed.

(** X2.  The rules of the five modality directories exclude each other and
    every rule but [is_cont]: when one of [is_anat], [is_dwi], [is_func],
    [is_behavioral], [is_field_map] accepts a path, it is the only rule
    among the ten of [rules_but_cont] that does. *)
Theorem modality_rule_accepts_alone (ia : bool) (rule : string -> M bool)
  (path : string) :
  In rule modality_rules ->
  rule path (init ia) = (Ok true, init ia) ->
  length (filter (fun r => says_true (r path (init ia))) rules_but_cont) = 1.
Proof.
  intros Hr Ht. rewrite filter_length_map, answers_but_cont_run.
  unfold modality_rules in Hr. cbn [In] in Hr.
  destruct Hr as [<-|[<-|[<-|[<-|[<-|[]]]]]].
  - rewrite is_anat_run in Ht. apply ok_true_iff in Ht.
    now rewrite (anat_alone ia path Ht).
  - rewrite is_dwi_run in Ht. apply ok_true_iff in Ht.
    now rewrite (dwi_alone ia path Ht).
  - rewrite is_func_run in Ht. apply ok_true_iff in Ht.
    now rewrite (func_alone ia path Ht).
  - rewrite is_behavioral_run in Ht. apply ok_true_iff in Ht.
    now rewrite (beh_alone ia path Ht).
  - rewrite is_field_map_run in Ht. apply ok_true_iff in Ht.
    now rewrite (field_map_alone ia path Ht).
Qed.

Lemma modality_rule_accepts_alone_witness :
  length (filter (fun r => says_true
                    (r "/sub-01/dwi/sub-01_dwi.bvec" (init true)))
                 rules_but_cont) = 1.
Proof.
  apply (@modality_rule_accepts_alone true is_dwi "/sub-01/dwi/sub-01_dwi.bvec").
  - cbn. auto.
  - vm_compute. reflexivity.
Defined.

(** ** Labels that may extend one another *)

(** A label before a delimiter, read against a label before any
    character: the labels agree, or the first goes on past the second. *)
Lemma label_prefix_split f (L1 L2 X r : string) (d a : ascii) :
  str_all f L1 = true -> str_all f L2 = true -> f d = false ->
  L1 ++ String d X = L2 ++ String a r ->
  (a = d /\ L1 = L2 /\ X = r) \/
  (exists t, L1 = L2 ++ String a t /\ str_all f t = true /\
             r = t ++ String d X).
Proof.
  revert L1. induction L2 as [|c L2 IH]; intros [|b L1] H1 H2 Hd E;
    cbn [append] in E.
  - injection E as -> ->. auto.
  - injection E as -> <-. cbn [str_all] in H1. apply andb_prop in H1.
    right. exists L1. tauto.
  - injection E as -> _. cbn [str_all] in H2. apply andb_prop in H2.
    destruct H2. congruence.
  - injection E as -> E. cbn [str_all] in H1, H2.
    apply andb_prop in H1, H2. destruct H1 as [_ H1], H2 as [_ H2].
    destruct (IH _ H1 H2 Hd E) as [(-> & -> & ->)|(t & -> & Ht & ->)].
    + left. repeat split.
    + right. exists t. repeat split. exact Ht.
Qed.

(** A label before a delimiter, read against a text with a known head. *)
Lemma label_peel f (L X r : string) (d a : ascii) :
  str_all f L = true ->
  L ++ String d X = String a r ->
  (a = d /\ L = "" /\ X = r) \/
  (exists t, L = String a t /\ f a = true /\ str_all f t = true /\
             r = t ++ String d X).
Proof.
  intros HL E. destruct L as [|b L]; cbn [append] in E.
  - injection E as -> ->. auto.
  - injection E as -> <-. cbn [str_all] in HL. apply andb_prop in HL.
    right. exists L. tauto.
Qed.

(** Substitute a variable an equation defines, if it does. *)
Ltac use_eq H :=
  lazymatch type of H with
  | ?x = ?y =>
      first [ is_var x; subst x | is_var y; subst y | discriminate H | idtac ]
  end.

Ltac split_label :=
  match goal with
  | E : ?L1 ++ String ?d ?X = ?L2 ++ String ?a ?r,
    H1 : str_all ?f ?L1 = true, H2 : str_all ?f ?L2 = true |- _ =>
      let Hd := fresh "Hd" in
      assert (Hd : f d = false) by reflexivity;
      let t := fresh "t" in let Ht := fresh "Ht" in
      let Ea := fresh "Ea" in
      let E1 := fresh "E" in let E2 := fresh "E" in
      destruct (@label_prefix_split f L1 L2 X r d a H1 H2 Hd E)
        as [(Ea & E1 & E2)|(t & E1 & Ht & E2)];
      clear E Hd;
      [ use_eq Ea; use_eq E1; use_eq E2 | use_eq E1; use_eq E2 ]
  end.

Ltac peel_label :=
  match goal with
  | E : ?L ++ String ?d ?X = String ?a ?r, HL : str_all ?f ?L = true |- _ =>
      let t := fresh "t" in let Ht := fresh "Ht" in
      let Ea := fresh "Ea" in let Hfa := fresh "Hfa" in
      let E1 := fresh "E" in let E2 := fresh "E" in
      destruct (@label_peel f L X r d a HL E)
        as [(Ea & E1 & E2)|(t & E1 & Hfa & Ht & E2)];
      clear E;
      [ use_eq Ea; use_eq E1; use_eq E2
      | first [ discriminate Hfa | use_eq E1; use_eq E2 ] ]
  end.

(** [use_text_eq], going on into a label when the text starts with one. *)
Ltac use_text_eq2 E :=
  cbn [append rest pos caps] in E;
  first
    [ discriminate E
    | match type of E with
      | ?x = _ => is_var x; subst x
      | _ = ?y => is_var y; subst y
      | String _ _ = String _ _ =>
          let Ea := fresh "Ea" in
          apply string_cons_inj in E; destruct E as [Ea E];
          match type of Ea with
          | ?u = ?u => clear Ea
          | ?u = _ => is_var u; subst u
          | _ = ?v => is_var v; subst v
          | _ => idtac
          end;
          use_text_eq2 E
      | ?a ++ _ = ?a ++ _ => apply append_inv_head in E; use_text_eq2 E
      | _ ++ String _ _ = String _ _ => peel_label
      | _ => idtac
      end ].

(** The text is neither empty nor a lone line feed. *)
Ltac not_at_end :=
  match goal with
  | E : ?s = "" \/ ?s = String newline "" |- _ =>
      cbn [append] in E; destruct E as [E|E];
      first [ discriminate E
            | apply (f_equal String.length) in E;
              rewrite ?length_append in E; cbn in E; lia ]
  end.

(** [inv_mt], with labels that may extend one another. *)
Ltac inv_mt2 H :=
  cbn [append rest pos caps] in H;
  lazymatch type of H with
  | In (?c, ?st') (mt REmpty _) =>
      apply in_mt_empty in H; destruct H as [? ?]; subst c; subst st'
  | In (?c, ?st') (mt (RChar (CLit _)) (MState _ _ _)) =>
      let E := fresh "E" in
      apply in_mt_lit in H; destruct H as (? & E & ? & ?);
      subst c; subst st'; use_text_eq2 E; try resolve_label;
      try split_label
  | In (?c, ?st') (mt (RChar _) (MState _ _ _)) =>
      let E := fresh "E" in let Hm := fresh "Hm" in
      apply in_mt_char in H; destruct H as (? & ? & E & Hm & ? & ?);
      subst c; subst st'; use_text_eq2 E; try split_label
  | In (?c, ?st') (mt (RRepeat _ _) (MState _ _ _)) =>
      let E := fresh "E" in
      let Hall := fresh "Hall" in let Hlen := fresh "Hlen" in
      apply in_mt_repeat in H; destruct H as (? & E & Hall & Hlen & ?);
      subst st'; use_text_eq E
  | In (?c, ?st') (mt RBol (MState _ _ _)) =>
      let E := fresh "E" in
      apply in_mt_bol in H; destruct H as (E & ? & ?);
      subst c; subst st'; try discriminate E
  | In (?c, ?st') (mt REol (MState _ _ _)) =>
      let E := fresh "E" in
      apply in_mt_eol in H; destruct H as (E & ? & ?);
      subst c; subst st'; try solve [not_at_end]
  | In (?c, _) (mt (RCat _ _) _) =>
      let H1 := fresh "H" in let H2 := fresh "H" in
      apply in_mt_cat in H; destruct H as (? & ? & ? & H1 & H2 & ?);
      subst c; inv_mt2 H1; inv_mt2 H2
  | In _ (mt (RAlt _ _) _) =>
      apply in_mt_alt in H; destruct H as [H|H]; inv_mt2 H
  | In (?c, ?st') (mt (ROpt _) _) =>
      apply in_mt_opt in H; destruct H as [H|[? ?]];
      [inv_mt2 H | subst c; subst st']
  | In (_, ?st') (mt (RGroup _ _) _) =>
      let E := fresh "E" in
      apply in_mt_group in H; destruct H as (? & H & E);
      inv_mt2 H; cbn [append rest pos caps] in E;
      rewrite ?append_nil_r in E; subst st'
  | In (?c, ?st') (mt (RBackref _) (MState _ _ _)) =>
      let E := fresh "E" in let Hc := fresh "Hc" in
      apply in_mt_backref in H; destruct H as (? & Hc & E & ?);
      subst st'; cbn in Hc;
      first [ discriminate Hc
            | injection Hc as Hc; subst c; use_text_eq2 E ]
  | _ => idtac
  end.

Ltac kill_first_matches2 :=
  repeat match goal with
  | |- context [first_match ?pt ?s] =>
      rewrite (@first_match_none pt s)
        by (let H := fresh "H" in
            intros ? ? H; unfold pt, rx in H; inv_mt2 H; congruence)
  end.

(** ** The sessions file of a subject *)

Lemma bids_b_subject_level ia path :
  subject_level_b path = true -> bids_b ia path = true.
Proof. intros H. unfold bids_b. rewrite H, !orb_true_r. reflexivity. Qed.

Lemma sessions_same_subject S ext :
  is_label S = true -> In ext [".tsv"; ".json"] ->
  subject_level_b (sessions_path S S ext) = true.
Proof.
  intros HS Hext. apply is_label_elim in HS. destruct HS as [HS HSl].
  unfold alnum in HS. unfold subject_level_b, sessions_path.
  cbn [In] in Hext. destruct Hext as [<-|[<-|[]]];
    rewrite ?append_assoc; cbn [append];
    match goal with
    | |- found (first_match ?pt ?p) = true =>
        destruct (@first_match_some pt p) as (m & ->); [|reflexivity]
    end;
    eexists (_, _); unfold sessions_re, rx; build_mt.
Qed.

Lemma sessions_other_subject ia S S' ext :
  is_label S = true -> is_label S' = true -> In ext [".tsv"; ".json"] ->
  S <> S' ->
  bids_b ia (sessions_path S S' ext) = false.
Proof.
  intros HS HS' Hext Hne. apply is_label_elim in HS, HS'.
  destruct HS as [HS _], HS' as [HS' _]. unfold alnum in HS, HS'.
  unfold sessions_path.
  cbn [In] in Hext. destruct Hext as [<-|[<-|[]]];
    rewrite ?append_assoc; cbn [append];
    unfold bids_b, top_level_b, associated_data_b, session_level_b,
      subject_level_b, phenotypic_b, accepts;
    kill_first_matches2; cbn [found];
    rewrite !orb_false_r, andb_false_r; reflexivity.
Qed.

(** X3.  For labels [S] and [S'], [is_bids] accepts the sessions table
    [/sub-<S>/sub-<S'>_sessions.tsv] (and the [.json] beside it) exactly when
    the label of the file name is the label of the directory. *)
Theorem sessions_file_subject_must_agree (ia : bool) (S S' ext : string) :
  is_label S = true -> is_label S' = true -> In ext [".tsv"; ".json"] ->
  is_bids (sessions_path S S' ext) (init ia) = (Ok (S =? S'), init ia).
Proof.
  intros HS HS' Hext. rewrite is_bids_run. f_equal. f_equal.
  destruct (String.eqb_spec S S') as [->|Hne].
  - apply bids_b_subject_level. now apply sessions_same_subject.
  - now apply sessions_other_subject.
Qed.

Lemma sessions_file_subject_must_agree_witness :
  is_bids "/sub-01/sub-01_sessions.tsv" (init true) = (Ok true, init true) /\
  is_bids "/sub-01/sub-02_sessions.json" (init true) = (Ok false, init true).
Proof.
  split.
  - exact (@sessions_file_subject_must_agree true "01" "01" ".tsv"
             eq_refl eq_refl (or_introl eq_refl)).
  - exact (@sessions_file_subject_must_agree true "01" "02" ".json"
             eq_refl eq_refl (or_intror (or_introl eq_refl))).
Defined.

(** ** The scans table of a subject or session *)

Lemma accepts_never pt path :
  (forall c st', In (c, st') (mt (rx pt) (MState 0 path [])) ->
                 session_consistent (c, st') = false) ->
  accepts pt path = false.
Proof.
  intros Hall. unfold accepts.
  destruct (first_match pt path) as [[c st']|] eqn:E; [|reflexivity].
  apply Hall. now apply first_match_in.
Qed.

Lemma bids_b_session_level ia path :
  session_level_b path = true -> bids_b ia path = true.
Proof. intros H. unfold bids_b. rewrite H, !orb_true_r. reflexivity. Qed.

Lemma scans_accepted S ses fses :
  is_label S = true ->
  (ses = "" /\ fses = "") \/
  (exists L, is_label L = true /\ ses = "ses-" ++ L ++ "/" /\
             fses = "_ses-" ++ L) ->
  accepts scans_re (scans_path S ses fses) = true.
Proof.
  intros HS Hses. apply is_label_elim in HS. destruct HS as [HS HSl].
  unfold alnum in HS. unfold scans_path.
  destruct Hses as [(-> & ->)|(L & HL & -> & ->)].
  - rewrite ?append_assoc. cbn [append]. apply accepts_all.
    + eexists (_, _). unfold scans_re, rx. build_mt.
    + intros c st' H. unfold scans_re, rx in H. inv_mt H. reflexivity.
  - apply is_label_elim in HL. destruct HL as [HL HLl]. unfold alnum in HL.
    rewrite ?append_assoc. cbn [append]. apply accepts_all.
    + eexists (_, _). unfold scans_re, rx. build_mt.
    + intros c st' H. unfold scans_re, rx in H. inv_mt H.
      unfold session_consistent;
        cbn [snd caps group_text cap_lookup Nat.eqb str_tail].
      now rewrite String.eqb_refl.
Qed.

Lemma scans_without_file_session ia S L :
  is_label S = true -> is_label L = true ->
  bids_b ia (scans_path S ("ses-" ++ L ++ "/") "") = false.
Proof.
  intros HS HL. apply is_label_elim in HS, HL.
  destruct HS as [HS _], HL as [HL _]. unfold alnum in HS, HL.
  unfold scans_path. rewrite ?append_assoc. cbn [append].
  match goal with
  | |- bids_b _ ?p = false =>
      assert (Hscans : accepts scans_re p = false)
  end.
  { apply accepts_never. intros c st' H. unfold scans_re, rx in H.
    inv_mt H. reflexivity. }
  unfold bids_b, session_level_b. rewrite Hscans.
  unfold top_level_b, associated_data_b, subject_level_b, phenotypic_b,
    accepts.
  kill_first_matches. cbn [found].
  rewrite !orb_false_r, andb_false_r. reflexivity.
Qed.

(** X4.  The scans table of a subject, [/sub-<S>/sub-<S>_scans.tsv], and
    of a session, [/sub-<S>/ses-<L>/sub-<S>_ses-<L>_scans.tsv], are
    accepted by [is_bids]; under a session directory the table whose name
    leaves the session out, [/sub-<S>/ses-<L>/sub-<S>_scans.tsv], is
    rejected. *)
Theorem scans_table_needs_its_session (ia : bool) (S L : string) :
  is_label S = true -> is_label L = true ->
  is_bids (scans_path S "" "") (init ia) = (Ok true, init ia) /\
  is_bids (scans_path S ("ses-" ++ L ++ "/") ("_ses-" ++ L)) (init ia)
    = (Ok true, init ia) /\
  is_bids (scans_path S ("ses-" ++ L ++ "/") "") (init ia)
    = (Ok false, init ia).
Proof.
  intros HS HL. rewrite !is_bids_run. repeat split; f_equal; f_equal.
  - apply bids_b_session_level. unfold session_level_b.
    rewrite scans_accepted; [reflexivity | exact HS | now left].
  - apply bids_b_session_level. unfold session_level_b.
    rewrite scans_accepted; [reflexivity | exact HS | right; eauto].
  - now apply scans_without_file_session.
Qed.

Lemma scans_table_needs_its_session_witness :
  is_bids "/sub-01/sub-01_scans.tsv" (init true) = (Ok true, init true) /\
  is_bids "/sub-01/ses-pre/sub-01_ses-pre_scans.tsv" (init true)
    = (Ok true, init true) /\
  is_bids "/sub-01/ses-pre/sub-01_scans.tsv" (init true)
    = (Ok false, init true).
Proof.
  exact (@scans_table_needs_its_session true "01" "pre" eq_refl eq_refl).
Defined.

(** ** Phenotypic data *)

(** [build_mt], with characters known by a hypothesis only. *)
Ltac build_mt2 :=
  cbn [append rest pos caps];
  lazymatch goal with
  | |- In _ (mt REmpty _) => apply in_mt_empty; split; reflexivity
  | |- In _ (mt (RChar (CLit _)) _) =>
      apply in_mt_lit; eexists; split; [reflexivity | split; reflexivity]
  | |- In _ (mt (RChar _) _) =>
      apply in_mt_char; do 2 eexists;
      split; [reflexivity
             | split; [first [reflexivity | eassumption]
                      | split; reflexivity]]
  | |- In _ (mt (RRepeat _ _) _) =>
      apply in_mt_repeat; eexists;
      split; [reflexivity
             | split; [eassumption | split; [eassumption | reflexivity]]]
  | |- In _ (mt RBol _) =>
      apply in_mt_bol; split; [reflexivity | split; reflexivity]
  | |- In _ (mt REol _) =>
      apply in_mt_eol; split; [first [now left | now right] | split; reflexivity]
  | |- In _ (mt (RCat _ _) _) =>
      apply in_mt_cat; do 3 eexists;
      split; [build_mt2 | split; [build_mt2 | reflexivity]]
  | |- In _ (mt (RAlt _ _) _) =>
      apply in_mt_alt; first [left; build_mt2 | right; build_mt2]
  | |- In _ (mt (ROpt _) _) =>
      apply in_mt_opt; first [left; build_mt2 | right; split; reflexivity]
  | |- In _ (mt (RGroup _ _) _) =>
      apply in_mt_group; eexists;
      split; [build_mt2 | cbn [append rest pos caps]; reflexivity]
  end.

Lemma phenotypic_shape_of path :
  phenotypic_b path = true -> phenotype_shape path.
Proof.
  unfold phenotypic_b.
  destruct (first_match phenotypic_re path) as [[c st']|] eqn:E;
    [intros _ | discriminate].
  apply first_match_in in E. unfold phenotypic_re, rx in E. inv_mt E.
  all: match goal with
       | Hall : str_all (cset_mem CDot) ?r = true,
         Hm : cset_mem CDot ?a = true,
         E : ?s = "" \/ ?s = String newline "" |- _ =>
           exists r, a;
           first [ exists "tsv", s; split; [|split; [|split]];
                   [ | cbn; tauto | | reflexivity ]
                 | exists "json", s; split; [|split; [|split]];
                   [ | cbn; tauto | | reflexivity ] ];
           [ unfold single_line; rewrite str_all_append, Hall; cbn [str_all];
             now rewrite Hm
           | destruct E as [->| ->]; cbn; tauto ]
       end.
Qed.

Lemma phenotypic_of_shape path :
  phenotype_shape path -> phenotypic_b path = true.
Proof.
  intros (r & a & ext & nl & Hs & Hext & Hnl & ->).
  unfold single_line in Hs. rewrite str_all_append in Hs.
  apply andb_prop in Hs. destruct Hs as [Hr Ha]. cbn [str_all] in Ha.
  rewrite andb_true_r in Ha.
  assert (Hl : 0 <= String.length r) by lia.
  unfold phenotypic_b.
  match goal with
  | |- found (first_match ?pt ?p) = true =>
      destruct (@first_match_some pt p) as (m & ->); [|reflexivity]
  end.
  cbn [In] in Hext, Hnl.
  destruct Hext as [<-|[<-|[]]]; destruct Hnl as [<-|[<-|[]]];
    cbn [append]; eexists (_, _); unfold phenotypic_re, rx; build_mt2.
Qed.

(** X5.  [is_phenotypic] accepts exactly the paths
    [/phenotype/<r><a>tsv] and [/phenotype/<r><a>json], where [<r><a>] holds
    no line feed and [<a>] is any one character (the dot of the pattern is
    not escaped), with or without one line feed at the very end. *)
Theorem is_phenotypic_accepts_exactly (ia : bool) (path : string) :
  is_phenotypic path (init ia) = (Ok true, init ia) <-> phenotype_shape path.
Proof.
  rewrite is_phenotypic_run, ok_true_iff. split.
  - apply phenotypic_shape_of.
  - apply phenotypic_of_shape.
Qed.

(** ** Associated data, switched on and off *)

(** X6.  With [index_associated] false, [is_bids] rejects every path under
    [/code/], [/derivatives/], [/sourcedata/] and [/stimuli/]: no other rule
    accepts anything there. *)
Theorem associated_off_rejects (path : string) :
  under_associated path = true ->
  is_bids path (init false) = (Ok false, init false).
Proof.
  intros H. rewrite is_bids_run. f_equal. f_equal.
  now apply associated_rejected_when_off.
Qed.

Lemma associated_off_rejects_witness :
  is_bids "/derivatives/fmriprep/sub-01/anat/sub-01_T1w.nii.gz" (init false)
  = (Ok false, init false).
Proof.
  exact (@associated_off_rejects
           "/derivatives/fmriprep/sub-01/anat/sub-01_T1w.nii.gz" eq_refl).
Defined.

(** X7.  With [index_associated] true, [is_bids] accepts every path under
    [/code/], [/derivatives/], [/sourcedata/] and [/stimuli/] that holds no
    line feed, whatever else it holds. *)
Theorem associated_on_accepts (path : string) :
  under_associated path = true -> single_line path = true ->
  is_bids path (init true) = (Ok true, init true).
Proof.
  intros H Hs. rewrite is_bids_run. f_equal. f_equal.
  now apply associated_accepted_single_line.
Qed.

Lemma associated_on_accepts_witness :
  is_bids "/code/not a bids name at all" (init true) = (Ok true, init true).
Proof.
  exact (@associated_on_accepts "/code/not a bids name at all"
           eq_refl eq_refl).
Defined.

(** ** [is_func_bold] against [is_func] *)

Lemma func_bold_re_ok : compile func_bold_pat = Ok func_bold_re.
Proof. vm_compute. reflexivity. Qed.

Lemma is_func_bold_run ia path :
  is_func_bold path (init ia) = (Ok (accepts func_bold_re path), init ia).
Proof.
  unfold is_func_bold. rewrite (@bind_compile _ _ _ _ _ func_bold_re_ok).
  now end_cm.
Qed.

Lemma sbref_nii_func_bold S T :
  is_label S = true -> is_label T = true ->
  accepts func_bold_re (sbref_nii_path S T) = true.
Proof.
  intros HS HT. apply is_label_elim in HS, HT.
  destruct HS as [HS HSl], HT as [HT HTl]. unfold alnum in HS, HT.
  unfold sbref_nii_path. rewrite ?append_assoc. cbn [append].
  apply accepts_all.
  - eexists (_, _). unfold func_bold_re, rx. build_mt.
  - intros c st' H. unfold func_bold_re, rx in H. inv_mt H. reflexivity.
Qed.

Lemma sbref_nii_not_bids ia S T :
  is_label S = true -> is_label T = true ->
  bids_b ia (sbref_nii_path S T) = false.
Proof.
  intros HS HT. apply is_label_elim in HS, HT.
  destruct HS as [HS _], HT as [HT _]. unfold alnum in HS, HT.
  unfold sbref_nii_path. rewrite ?append_assoc. cbn [append].
  unfold bids_b, top_level_b, associated_data_b, session_level_b,
    subject_level_b, phenotypic_b, accepts.
  kill_first_matches. cbn [found].
  rewrite !orb_false_r, andb_false_r. reflexivity.
Qed.

Lemma sbref_nii_not_func S T :
  is_label S = true -> is_label T = true ->
  accepts func_re (sbref_nii_path S T) = false.
Proof.
  intros HS HT. apply is_label_elim in HS, HT.
  destruct HS as [HS _], HT as [HT _]. unfold alnum in HS, HT.
  unfold sbref_nii_path. rewrite ?append_assoc. cbn [append].
  unfold accepts. kill_first_matches. reflexivity.
Qed.

(** X8.  [is_func_bold] accepts the uncompressed single-band reference
    [/sub-<S>/func/sub-<S>_task-<T>_sbref.nii], which [is_func] does not
    list: [is_func] and [is_bids] reject the very path. *)
Theorem func_bold_accepts_what_is_bids_rejects (ia : bool) (S T : string) :
  is_label S = true -> is_label T = true ->
  is_func_bold (sbref_nii_path S T) (init ia) = (Ok true, init ia) /\
  is_func (sbref_nii_path S T) (init ia) = (Ok false, init ia) /\
  is_bids (sbref_nii_path S T) (init ia) = (Ok false, init ia).
Proof.
  intros HS HT. rewrite is_func_bold_run, is_func_run, is_bids_run.
  rewrite (sbref_nii_func_bold S T HS HT), (sbref_nii_not_func S T HS HT),
    (sbref_nii_not_bids ia S T HS HT).
  repeat split.
Qed.

Lemma func_bold_accepts_what_is_bids_rejects_witness :
  is_func_bold "/sub-01/func/sub-01_task-rest_sbref.nii" (init true)
    = (Ok true, init true) /\
  is_func "/sub-01/func/sub-01_task-rest_sbref.nii" (init true)
    = (Ok false, init true) /\
  is_bids "/sub-01/func/sub-01_task-rest_sbref.nii" (init true)
    = (Ok false, init true).
Proof.
  exact (@func_bold_accepts_what_is_bids_rejects true "01" "rest"
           eq_refl eq_refl).
Defined.

(** * The grouping loop of [check_duplicate_files] *)

Lemma hash_map_get_set_same d k v :
  hash_map_get (hash_map_set d k v) k = Some v.
Proof.
  induction d as [|[k' v'] d IH]; cbn.
  - now rewrite String.eqb_refl.
  - destruct (k' =? k) eqn:E; cbn.
    + now rewrite String.eqb_refl.
    + now rewrite E.
Qed.

Lemma hash_map_get_set_other d k k' v :
  k <> k' -> hash_map_get (hash_map_set d k v) k' = hash_map_get d k'.
Proof.
  intros Hk. induction d as [|[k0 v0] d IH]; cbn.
  - apply String.eqb_neq in Hk. now rewrite Hk.
  - destruct (k0 =? k) eqn:E; cbn.
    + apply String.eqb_eq in E. subst k0.
      apply String.eqb_neq in Hk. now rewrite Hk.
    + now rewrite IH.
Qed.

Lemma hash_map_get_step md5 d f h :
  hash_map_get (hash_map_step md5 d f) h =
  if md5 f =? h
  then Some (match hash_map_get d h with
             | Some l => (l ++ [f])%list
             | None => [f]
             end)
  else hash_map_get d h.
Proof.
  unfold hash_map_step. destruct (md5 f =? h) eqn:E.
  - apply String.eqb_eq in E. subst h.
    destruct (hash_map_get d (md5 f)); apply hash_map_get_set_same.
  - apply String.eqb_neq in E.
    destruct (hash_map_get d (md5 f));
      now apply hash_map_get_set_other.
Qed.

Lemma hash_map_get_fold md5 files : forall d h,
  hash_map_get (fold_left (hash_map_step md5) files d) h =
  match hash_map_get d h with
  | Some l => Some (l ++ with_digest md5 h files)%list
  | None => match with_digest md5 h files with
            | [] => None
            | l => Some l
            end
  end.
Proof.
  unfold with_digest.
  induction files as [|f files IH]; intros d h; cbn [fold_left filter].
  - destruct (hash_map_get d h); [now rewrite app_nil_r | reflexivity].
  - rewrite IH, hash_map_get_step.
    destruct (md5 f =? h); [|reflexivity].
    destruct (hash_map_get d h); [now rewrite <- app_assoc | reflexivity].
Qed.

Lemma hash_map_get_none d k :
  hash_map_get d k = None -> ~ In k (map fst d).
Proof.
  induction d as [|[k' v] d IH]; cbn; [tauto|].
  destruct (k' =? k) eqn:E; [discriminate|].
  apply String.eqb_neq in E. intros H [H1|H1]; [tauto | now apply IH].
Qed.

Lemma hash_map_keys_set d k v :
  map fst (hash_map_set d k v) =
  match hash_map_get d k with
  | Some _ => map fst d
  | None => (map fst d ++ [k])%list
  end.
Proof.
  induction d as [|[k' v'] d IH]; cbn; [reflexivity|].
  destruct (k' =? k) eqn:E; cbn.
  - apply String.eqb_eq in E. now subst.
  - rewrite IH. now destruct (hash_map_get d k).
Qed.

Lemma hash_map_keys_step md5 d f :
  NoDup (map fst d) -> NoDup (map fst (hash_map_step md5 d f)).
Proof.
  intros Hd. unfold hash_map_step.
  destruct (hash_map_get d (md5 f)) eqn:E; rewrite hash_map_keys_set, E;
    [exact Hd|].
  apply hash_map_get_none in E.
  apply NoDup_rev in Hd. rewrite <- (rev_involutive (_ ++ _)%list).
  apply NoDup_rev. rewrite rev_app_distr. cbn. constructor; [|exact Hd].
  now rewrite <- in_rev.
Qed.

Lemma hash_map_keys_fold md5 files : forall d,
  NoDup (map fst d) ->
  NoDup (map fst (fold_left (hash_map_step md5) files d)).
Proof.
  induction files as [|f files IH]; intros d Hd; cbn [fold_left];
    [exact Hd|].
  apply IH. now apply hash_map_keys_step.
Qed.

Lemma hash_map_values_set d k l f :
  hash_map_get d k = Some l ->
  Permutation (concat (map snd (hash_map_set d k (l ++ [f])%list)))
              (concat (map snd d) ++ [f])%list.
Proof.
  induction d as [|[k' v'] d IH]; cbn; [discriminate|].
  destruct (k' =? k) eqn:E; cbn.
  - intros [= ->]. rewrite <- !app_assoc. apply Permutation_app_head.
    apply Permutation_app_comm.
  - intros H. rewrite <- app_assoc. apply Permutation_app_head.
    now apply IH.
Qed.

Lemma hash_map_values_new d k v :
  hash_map_get d k = None ->
  concat (map snd (hash_map_set d k v)) = (concat (map snd d) ++ v)%list.
Proof.
  induction d as [|[k' v'] d IH]; cbn.
  - intros _. now rewrite app_nil_r.
  - destruct (k' =? k); [discriminate|]. intros H. cbn.
    now rewrite IH, app_assoc.
Qed.

Lemma hash_map_values_fold md5 files : forall d,
  Permutation (concat (map snd (fold_left (hash_map_step md5) files d)))
              (concat (map snd d) ++ files)%list.
Proof.
  induction files as [|f files IH]; intros d; cbn [fold_left].
  - now rewrite app_nil_r.
  - rewrite IH. change (f :: files) with ([f] ++ files)%list.
    rewrite app_assoc. apply Permutation_app_tail.
    unfold hash_map_step. destruct (hash_map_get d (md5 f)) eqn:E.
    + now apply hash_map_values_set.
    + now rewrite hash_map_values_new.
Qed.

(** X9.  When the loop of [check_duplicate_files] is over, [hash_map] has a
    key for a digest exactly when some listed file has that digest, and the
    key then holds precisely the listed files with that digest, in the order
    in which they were listed. *)
Theorem hash_map_groups_by_digest (md5 : string -> string)
    (all_niftis : list string) (h : string) :
  hash_map_get (hash_map_loop md5 all_niftis) h =
  match with_digest md5 h all_niftis with
  | [] => None
  | l => Some l
  end.
Proof.
  unfold hash_map_loop. rewrite hash_map_get_fold. reflexivity.
Qed.

(** X10.  The loop of [check_duplicate_files] loses no file and invents
    none: the keys of [hash_map] are pairwise distinct, and its values, put
    end to end, are a rearrangement of the listed files (a file listed
    twice is held twice). *)
Theorem hash_map_keeps_every_file (md5 : string -> string)
    (all_niftis : list string) :
  NoDup (map fst (hash_map_loop md5 all_niftis)) /\
  Permutation (concat (map snd (hash_map_loop md5 all_niftis))) all_niftis.
Proof.
  unfold hash_map_loop. split.
  - apply hash_map_keys_fold. constructor.
  - apply (hash_map_values_fold md5 all_niftis []).
Qed.

(** * A line feed after the path *)

Lemma filter_map_commute {A B} (f : B -> bool) (g : A -> B) (l : list A) :
  filter f (map g l) = map g (filter (fun x => f (g x)) l).
Proof.
  induction l as [|a l IH]; cbn; [reflexivity|].
  destruct (f (g a)); cbn; now rewrite IH.
Qed.

Lemma rep_splits_line_feed cs s :
  cset_mem cs newline = false ->
  rep_splits cs (s ++ line_feed) =
  map (fun cr => (fst cr, snd cr ++ line_feed)) (rep_splits cs s).
Proof.
  intros Hn. unfold line_feed.
  induction s as [|a s IH]; cbn [append rep_splits].
  - now rewrite Hn.
  - destruct (cset_mem cs a); [|reflexivity].
    rewrite IH, map_app, !map_map. reflexivity.
Qed.

Lemma mt_rest_single_line r st m :
  In m (mt r st) -> single_line (rest st) = true ->
  single_line (fst m) = true /\ single_line (rest (snd m)) = true.
Proof.
  destruct m as [c st']. intros H Hs. apply mt_reads in H.
  destruct H as [E _]. unfold single_line in *.
  rewrite E, str_all_append in Hs. now apply andb_prop in Hs.
Qed.

Lemma mt_caps_single_line r : forall st m,
  In m (mt r st) -> single_line (rest st) = true ->
  caps_single_line (caps st) = true ->
  caps_single_line (caps (snd m)) = true.
Proof.
  induction r; intros [p s k] [c st']; cbn [snd rest caps].
  - rewrite in_mt_empty. now intros [_ ->].
  - rewrite in_mt_char. now intros (a & s' & _ & _ & _ & ->).
  - rewrite in_mt_repeat. now intros (r & _ & _ & _ & ->).
  - rewrite in_mt_bol. now intros (_ & _ & ->).
  - rewrite in_mt_eol. now intros (_ & _ & ->).
  - rewrite in_mt_cat. intros (c1 & st1 & c2 & H1 & H2 & _) Hs Hk.
    apply (IHr2 st1 (c2, st') H2).
    + now apply (@mt_rest_single_line r1 (MState p s k) (c1, st1)).
    + now apply (IHr1 (MState p s k) (c1, st1)).
  - rewrite in_mt_alt. intros [H|H] Hs Hk;
      [now apply (IHr1 _ _ H) | now apply (IHr2 _ _ H)].
  - rewrite in_mt_opt. intros [H|[_ ->]] Hs Hk;
      [now apply (IHr _ _ H) | exact Hk].
  - rewrite in_mt_group. intros (st1 & H & ->) Hs Hk. cbn.
    apply andb_true_intro. split.
    + now apply (@mt_rest_single_line r (MState p s k) (c, st1)).
    + now apply (IHr _ _ H).
  - rewrite in_mt_backref. now intros (r & _ & _ & ->).
Qed.

Lemma cap_lookup_single_line n k v :
  caps_single_line k = true -> cap_lookup n k = Some v ->
  single_line v = true.
Proof.
  induction k as [|[m w] k IH]; cbn; [discriminate|].
  intros Hk. apply andb_prop in Hk. destruct Hk as [Hw Hk].
  destruct (m =? n)%nat; [now intros [= <-] | now apply IH].
Qed.

Lemma strip_prefix_line_feed v s :
  single_line v = true ->
  strip_prefix v (s ++ line_feed) =
  option_map (fun r => r ++ line_feed) (strip_prefix v s).
Proof.
  revert s. induction v as [|a v IH]; intros s Hv; cbn; [reflexivity|].
  cbn in Hv. apply andb_prop in Hv. destruct Hv as [Ha Hv].
  destruct s as [|b s]; cbn.
  - apply negb_true_iff in Ha. now rewrite Ha.
  - destruct (Ascii.eqb a b); [now apply IH | reflexivity].
Qed.

(** A pattern that reads no line feed matches a one-line text followed by a
    line feed as it matches the text alone, way for way. *)
Lemma mt_line_feed r :
  reads_no_line_feed r = true -> forall st,
  single_line (rest st) = true -> caps_single_line (caps st) = true ->
  mt r (extend line_feed st) = map (extend_match line_feed) (mt r st).
Proof.
  induction r; intros Hr [p s k] Hs Hk; cbn [rest caps] in Hs, Hk;
    cbn [reads_no_line_feed] in Hr; unfold extend at 1;
    cbn [mt rest pos caps].
  - reflexivity.
  - apply negb_true_iff in Hr. destruct s as [|a s].
    + unfold line_feed. cbn [append]. now rewrite Hr.
    + cbn [append]. now destruct (cset_mem cs a).
  - apply negb_true_iff in Hr.
    rewrite (@rep_splits_line_feed _ s Hr), filter_map_commute, !map_map.
    reflexivity.
  - now destruct (p =? 0)%nat.
  - unfold line_feed. destruct s as [|a [|b s]]; cbn [append map].
    + now rewrite Ascii.eqb_refl.
    + cbn in Hs. apply andb_prop in Hs. destruct Hs as [Ha _].
      apply negb_true_iff in Ha. unfold newline. cbn. now rewrite Ha.
    + reflexivity.
  - apply andb_prop in Hr. destruct Hr as [Hr1 Hr2].
    change (MState p (s ++ line_feed) k)
      with (extend line_feed (MState p s k)).
    rewrite (IHr1 Hr1 (MState p s k) Hs Hk).
    rewrite !flat_map_concat_map, concat_map, !map_map. f_equal.
    apply map_ext_in. intros m1 H1. cbn [extend_match snd fst].
    rewrite (IHr2 Hr2 (snd m1)), !map_map.
    + reflexivity.
    + now apply (@mt_rest_single_line r1 (MState p s k) m1).
    + now apply (@mt_caps_single_line r1 (MState p s k) m1).
  - apply andb_prop in Hr. destruct Hr as [Hr1 Hr2].
    change (MState p (s ++ line_feed) k)
      with (extend line_feed (MState p s k)).
    rewrite (IHr1 Hr1 (MState p s k) Hs Hk),
      (IHr2 Hr2 (MState p s k) Hs Hk), map_app. reflexivity.
  - change (MState p (s ++ line_feed) k)
      with (extend line_feed (MState p s k)).
    rewrite (IHr Hr (MState p s k) Hs Hk), map_app. reflexivity.
  - change (MState p (s ++ line_feed) k)
      with (extend line_feed (MState p s k)).
    rewrite (IHr Hr (MState p s k) Hs Hk), !map_map. reflexivity.
  - destruct (cap_lookup n k) as [v|] eqn:E; [|reflexivity].
    rewrite (@strip_prefix_line_feed v s (@cap_lookup_single_line n k v Hk E)).
    now destruct (strip_prefix v s).
Qed.

Lemma first_match_line_feed pt s :
  reads_no_line_feed (rx pt) = true -> single_line s = true ->
  first_match pt (s ++ line_feed) =
  option_map (extend_match line_feed) (first_match pt s).
Proof.
  intros Hr Hs. unfold first_match.
  change (MState 0 (s ++ line_feed) []) with (extend line_feed (MState 0 s [])).
  rewrite (@mt_line_feed (rx pt) Hr (MState 0 s []) Hs eq_refl).
  now destruct (mt (rx pt) (MState 0 s [])).
Qed.

Lemma found_line_feed pt s :
  reads_no_line_feed (rx pt) = true -> single_line s = true ->
  found (first_match pt (s ++ line_feed)) = found (first_match pt s).
Proof.
  intros Hr Hs. rewrite (@first_match_line_feed pt s Hr Hs).
  now destruct (first_match pt s).
Qed.

Lemma accepts_line_feed pt s :
  reads_no_line_feed (rx pt) = true -> single_line s = true ->
  accepts pt (s ++ line_feed) = accepts pt s.
Proof.
  intros Hr Hs. unfold accepts. rewrite (@first_match_line_feed pt s Hr Hs).
  now destruct (first_match pt s).
Qed.

Lemma fixed_name_no_line_feed s :
  existsb (String.eqb (s ++ line_feed)) fixed_top_level_names = false.
Proof.
  destruct (existsb _ _) eqn:E; [|reflexivity]. exfalso.
  apply existsb_exists in E. destruct E as (x & Hx & E).
  apply String.eqb_eq in E.
  assert (Hl : single_line (s ++ line_feed) = false).
  { unfold single_line. rewrite str_all_append. apply andb_false_r. }
  rewrite E in Hl. cbn [In fixed_top_level_names] in Hx.
  repeat (destruct Hx as [<-|Hx]; [discriminate Hl|]). exact Hx.
Qed.

Lemma fixed_name_only_fixed ia s :
  existsb (String.eqb s) fixed_top_level_names = true ->
  bids_b ia (s ++ line_feed) = false.
Proof.
  intros E. apply existsb_exists in E. destruct E as (x & Hx & E).
  apply String.eqb_eq in E. subst x.
  cbn [In fixed_top_level_names] in Hx.
  repeat (destruct Hx as [<-|Hx]; [now destruct ia; vm_compute|]).
  destruct Hx.
Qed.

(** X11.  One line feed after a path that holds none changes nothing for
    the patterns, whose [$] matches before a final line feed; the fixed
    top-level names alone are compared whole.  So [is_bids] answers for
    [path + chr(10)] as for [path], except that a fixed top-level name
    followed by a line feed is rejected. *)
Theorem is_bids_trailing_line_feed (ia : bool) (path : string) :
  single_line path = true ->
  is_bids (path ++ line_feed) (init ia) =
  if existsb (String.eqb path) fixed_top_level_names
  then (Ok false, init ia)
  else is_bids path (init ia).
Proof.
  intros Hs. rewrite !is_bids_run.
  destruct (existsb (String.eqb path) fixed_top_level_names) eqn:E.
  - now rewrite fixed_name_only_fixed.
  - unfold bids_b, top_level_b, associated_data_b, session_level_b,
      subject_level_b, phenotypic_b.
    rewrite fixed_name_no_line_feed, E.
    rewrite !(fun pt H => @found_line_feed pt path H Hs) by reflexivity.
    rewrite !(fun pt H => @accepts_line_feed pt path H Hs) by reflexivity.
    reflexivity.
Qed.

Lemma is_bids_trailing_line_feed_witness :
  is_bids ("/sub-01/anat/sub-01_T1w.nii.gz" ++ line_feed) (init true) =
  is_bids "/sub-01/anat/sub-01_T1w.nii.gz" (init true).
Proof.
  exact (@is_bids_trailing_line_feed true "/sub-01/anat/sub-01_T1w.nii.gz"
           eq_refl).
Defined.

(** * Line feeds in accepted paths *)

Lemma str_all_impl (f g : ascii -> bool) (s : string) :
  (forall a, f a = true -> g a = true) ->
  str_all f s = true -> str_all g s = true.
Proof.
  intros Hfg. induction s as [|a s IH]; cbn; [reflexivity|].
  intros H. apply andb_prop in H. destruct H as [Ha Hs].
  now rewrite (Hfg a Ha), IH.
Qed.

Lemma cset_no_line_feed cs a :
  cset_mem cs newline = false -> cset_mem cs a = true ->
  cset_mem CDot a = true.
Proof.
  intros Hn Ha. cbn [cset_mem]. apply negb_true_iff.
  destruct (Ascii.eqb_spec a newline) as [->|_]; congruence.
Qed.

(** What a pattern without line feeds reads holds no line feed. *)
Lemma mt_text_single_line r :
  reads_no_line_feed r = true -> forall st m,
  In m (mt r st) -> caps_single_line (caps st) = true ->
  single_line (fst m) = true /\ caps_single_line (caps (snd m)) = true.
Proof.
  unfold single_line.
  induction r; intros Hr [p s k] [c st']; cbn [fst snd rest caps];
    cbn [reads_no_line_feed] in Hr.
  - rewrite in_mt_empty. intros [-> ->] Hk. auto.
  - apply negb_true_iff in Hr. rewrite in_mt_char.
    intros (a & s' & _ & Ha & -> & ->) Hk. split; [|exact Hk].
    cbn [str_all]. now rewrite (cset_no_line_feed cs a Hr Ha).
  - apply negb_true_iff in Hr. rewrite in_mt_repeat.
    intros (r & _ & Hc & _ & ->) Hk. split; [|exact Hk].
    apply (@str_all_impl (cset_mem cs) (cset_mem CDot) c); [|exact Hc].
    intros a. now apply cset_no_line_feed.
  - rewrite in_mt_bol. intros (_ & -> & ->) Hk. auto.
  - rewrite in_mt_eol. intros (_ & -> & ->) Hk. auto.
  - apply andb_prop in Hr. destruct Hr as [Hr1 Hr2].
    rewrite in_mt_cat. intros (c1 & st1 & c2 & H1 & H2 & ->) Hk.
    destruct (IHr1 Hr1 _ _ H1 Hk) as [Hc1 Hk1].
    destruct (IHr2 Hr2 _ _ H2 Hk1) as [Hc2 Hk2].
    cbn [fst snd] in *. split; [|exact Hk2].
    now rewrite str_all_append, Hc1, Hc2.
  - apply andb_prop in Hr. destruct Hr as [Hr1 Hr2].
    rewrite in_mt_alt. intros [H|H] Hk;
      [exact (IHr1 Hr1 _ _ H Hk) | exact (IHr2 Hr2 _ _ H Hk)].
  - rewrite in_mt_opt. intros [H|[-> ->]] Hk;
      [exact (IHr Hr _ _ H Hk) | auto].
  - rewrite in_mt_group. intros (st1 & H & ->) Hk.
    destruct (IHr Hr _ _ H Hk) as [Hc Hk1]. cbn [fst snd caps] in *.
    split; [exact Hc|]. cbn [caps_single_line forallb snd].
    unfold single_line. rewrite Hc. exact Hk1.
  - rewrite in_mt_backref. intros (r & Hv & _ & ->) Hk. split; [|exact Hk].
    exact (@cap_lookup_single_line n k c Hk Hv).
Qed.

(** A pattern that ends with [$] leaves nothing to read, or one line
    feed. *)
Lemma mt_ends_at_eol r :
  ends_at_eol r = true -> forall st m,
  In m (mt r st) -> rest (snd m) = "" \/ rest (snd m) = line_feed.
Proof.
  induction r; intros Hr st [c st']; try discriminate Hr.
  - destruct st as [p s k]. rewrite in_mt_eol.
    intros (Hs & _ & ->). exact Hs.
  - rewrite in_mt_cat. intros (c1 & st1 & c2 & H1 & H2 & _).
    destruct r2; try exact (IHr2 Hr st1 (c2, st') H2).
    apply in_mt_empty in H2. destruct H2 as [_ ->].
    exact (IHr1 Hr st (c1, st1) H1).
Qed.

Lemma one_line_pattern pt path :
  reads_no_line_feed (rx pt) = true -> ends_at_eol (rx pt) = true ->
  found (first_match pt path) = true \/ accepts pt path = true ->
  exists p, single_line p = true /\ (path = p \/ path = p ++ line_feed).
Proof.
  intros Hr He H.
  assert (Hm : exists m, first_match pt path = Some m).
  { unfold accepts in H. destruct (first_match pt path) as [m|]; [eauto|].
    destruct H; discriminate. }
  destruct Hm as ([c st'] & Hm). apply first_match_in in Hm.
  destruct (@mt_text_single_line (rx pt) Hr _ _ Hm eq_refl) as [Hc _].
  pose proof (@mt_ends_at_eol (rx pt) He _ _ Hm) as Hrest.
  apply mt_reads in Hm. destruct Hm as [E _]. cbn [fst snd rest] in *.
  exists c. split; [exact Hc|]. rewrite E.
  destruct Hrest as [->| ->]; [left; apply append_nil_r | now right].
Qed.

Ltac one_line H :=
  lazymatch type of H with
  | found (first_match ?pt _) = true =>
      apply (@one_line_pattern pt);
        [reflexivity | reflexivity | left; exact H]
  | accepts ?pt _ = true =>
      apply (@one_line_pattern pt);
        [reflexivity | reflexivity | right; exact H]
  end.

Lemma bids_b_one_line ia path :
  bids_b ia path = true ->
  exists p, single_line p = true /\ (path = p \/ path = p ++ line_feed).
Proof.
  unfold bids_b, top_level_b, associated_data_b, session_level_b,
    subject_level_b, phenotypic_b.
  intros H.
  repeat match type of H with
         | _ || _ = true => apply orb_prop in H; destruct H as [H|H]
         end;
    try (apply andb_prop in H; destruct H as [_ H]);
    try (one_line H; fail).
  apply existsb_exists in H. destruct H as (name & Hin & E).
  apply String.eqb_eq in E. subst name. exists path.
  split; [|now left]. cbn [fixed_top_level_names In] in Hin.
  repeat (destruct Hin as [<-|Hin]; [reflexivity|]). destruct Hin.
Qed.

(** X12.  A path [is_bids] accepts holds no line feed, except possibly one
    at its very end: no pattern reads a line feed, and each ends with [$],
    which matches at the end and before a final line feed. *)
Theorem accepted_path_is_one_line (ia : bool) (path : string) :
  is_bids path (init ia) = (Ok true, init ia) ->
  exists p, single_line p = true /\ (path = p \/ path = p ++ line_feed).
Proof.
  rewrite is_bids_run. intros H. apply ok_true_iff in H.
  now apply (@bids_b_one_line ia).
Qed.

Lemma accepted_path_is_one_line_witness :
  exists p, single_line p = true /\
            ("/participants.tsv" = p \/ "/participants.tsv" = p ++ line_feed).
Proof.
  apply (@accepted_path_is_one_line true "/participants.tsv").
  vm_compute. reflexivity.
Defined.

(** * Task files beside the session directories *)

Lemma task_sidecar_glued S T :
  is_label S = true -> is_label T = true ->
  accepts func_ses_re (task_sidecar_path S "" T) = true.
Proof.
  intros HS HT. apply is_label_elim in HS, HT.
  destruct HS as [HS HSl], HT as [HT HTl]. unfold alnum in HS, HT.
  unfold task_sidecar_path. rewrite ?append_assoc. cbn [append].
  apply accepts_all.
  - eexists (_, _). unfold func_ses_re, rx. build_mt.
  - intros c st' H. unfold func_ses_re, rx in H. inv_mt H. reflexivity.
Qed.

Lemma task_sidecar_underscore ia S T :
  is_label S = true -> is_label T = true ->
  bids_b ia (task_sidecar_path S "_" T) = false.
Proof.
  intros HS HT. apply is_label_elim in HS, HT.
  destruct HS as [HS _], HT as [HT _]. unfold alnum in HS, HT.
  unfold task_sidecar_path. rewrite ?append_assoc. cbn [append].
  unfold bids_b, top_level_b, associated_data_b, session_level_b,
    subject_level_b, phenotypic_b, accepts.
  kill_first_matches. cbn [found].
  rewrite !orb_false_r, andb_false_r. reflexivity.
Qed.

(** X13.  In the subject directory the task file with the usual name,
    [/sub-<S>/sub-<S>_task-<T>_bold.json], is rejected by [is_bids]: the
    pattern of [is_session_level] has no underscore before [task-], and
    accepts the name with subject and task glued,
    [/sub-<S>/sub-<S>task-<T>_bold.json]. *)
Theorem subject_task_file_underscore (ia : bool) (S T : string) :
  is_label S = true -> is_label T = true ->
  is_bids (task_sidecar_path S "_" T) (init ia) = (Ok false, init ia) /\
  is_bids (task_sidecar_path S "" T) (init ia) = (Ok true, init ia).
Proof.
  intros HS HT. rewrite !is_bids_run. split; f_equal; f_equal.
  - now apply task_sidecar_underscore.
  - apply bids_b_session_level. unfold session_level_b.
    rewrite (task_sidecar_glued S T HS HT). now rewrite orb_true_r.
Qed.

Lemma subject_task_file_underscore_witness :
  is_bids "/sub-01/sub-01_task-rest_bold.json" (init true)
    = (Ok false, init true) /\
  is_bids "/sub-01/sub-01task-rest_bold.json" (init true)
    = (Ok true, init true).
Proof.
  exact (@subject_task_file_underscore true "01" "rest" eq_refl eq_refl).
Defined.

(** * [conditional_match] on a pattern with two groups *)

(** X14.  [conditional_match] reads the third group of the first match:
    on an anchored pattern with exactly two groups it raises [IndexError]
    whenever the pattern matches, and returns [False] when it does not. *)
Theorem conditional_match_two_groups (pt : pattern) (path : string)
    (self : BIDSValidator) :
  anchored (rx pt) = true -> ngroups pt = 2 ->
  conditional_match pt path self =
  if found (first_match pt path)
  then (Raise IndexError, self)
  else (Ok false, self).
Proof.
  intros Ha Hn. unfold conditional_match.
  rewrite findall_anchored by exact Ha.
  destruct (first_match pt path) as [m|]; [|reflexivity].
  unfold item_of. rewrite Hn. reflexivity.
Qed.

Lemma conditional_match_two_groups_witness :
  conditional_match (compiled "^\/(sub-[0-9]+)(_T1w)?") "/sub-01_T1w"
    (init true) = (Raise IndexError, init true).
Proof.
  exact (@conditional_match_two_groups
           (compiled "^\/(sub-[0-9]+)(_T1w)?") "/sub-01_T1w" (init true)
           eq_refl eq_refl).
Defined.

(** * Session and subject tokens, rule by rule *)

(** X15.  With a session directory [ses-A] and a session token [ses-B] in
    the file name, [is_bids] accepts the anatomical path
    [/sub-<S>/ses-<A>/anat/sub-<S>_ses-<B>_T1w.nii.gz] exactly when the two
    labels are the same. *)
Theorem session_tokens_must_agree (ia : bool) (S A B : string) :
  is_label S = true -> is_label A = true -> is_label B = true ->
  is_bids (T1w_path S A B) (init ia) = (Ok (A =? B), init ia).
Proof.
  intros HS HA HB. rewrite is_bids_run. f_equal. f_equal.
  destruct (String.eqb_spec A B) as [->|Hne].
  - apply bids_b_anat. now apply T1w_same_session.
  - now apply T1w_other_session.
Qed.

Lemma session_tokens_must_agree_witness :
  is_bids "/sub-01/ses-test/anat/sub-01_ses-test_T1w.nii.gz" (init true)
    = (Ok true, init true) /\
  is_bids "/sub-01/ses-test/anat/sub-01_ses-other_T1w.nii.gz" (init true)
    = (Ok false, init true).
Proof.
  split.
  - exact (@session_tokens_must_agree true "01" "test" "test"
             eq_refl eq_refl eq_refl).
  - exact (@session_tokens_must_agree true "01" "test" "other"
             eq_refl eq_refl eq_refl).
Defined.

(** ** The separator after the subject token of the file name *)

Lemma leads_spec a r :
  (leads a r = true -> forall st c st',
     In (c, st') (mt r st) -> exists t, c = String a t) /\
  (opt_leads a r = true -> forall st c st',
     In (c, st') (mt r st) -> c = "" \/ exists t, c = String a t).
Proof.
  induction r as [| cs | n cs | | | r1 [L1 O1] r2 [L2 O2]
                 | r1 [L1 O1] r2 [L2 O2] | r [L O] | n r [L O] | n];
    cbn [leads opt_leads]; split; try discriminate.
  - intros _ st c st' H. apply in_mt_empty in H. left. tauto.
  - destruct cs as [x| |]; try discriminate. intros Hx [p s k] c st' H.
    apply Ascii.eqb_eq in Hx. subst x. apply in_mt_lit in H.
    destruct H as (s' & _ & -> & _). eauto.
  - destruct cs as [x| |]; try discriminate. intros Hx [p s k] c st' H.
    apply Ascii.eqb_eq in Hx. subst x. apply in_mt_lit in H.
    destruct H as (s' & _ & -> & _). eauto.
  - intros _ [p s k] c st' H. apply in_mt_bol in H. left. tauto.
  - intros _ [p s k] c st' H. apply in_mt_eol in H. left. tauto.
  - intros Hl st c st' H. apply in_mt_cat in H.
    destruct H as (c1 & st1 & c2 & H1 & H2 & ->).
    apply orb_prop in Hl. destruct Hl as [Hl|Hl].
    + destruct (L1 Hl _ _ _ H1) as (t & ->). cbn [append]. eauto.
    + apply andb_prop in Hl. destruct Hl as [Ho Hl].
      destruct (L2 Hl _ _ _ H2) as (t2 & ->).
      destruct (O1 Ho _ _ _ H1) as [->|(t1 & ->)]; cbn [append]; eauto.
  - intros Hl st c st' H. apply in_mt_cat in H.
    destruct H as (c1 & st1 & c2 & H1 & H2 & ->).
    apply orb_prop in Hl. destruct Hl as [Hl|Hl].
    + destruct (L1 Hl _ _ _ H1) as (t & ->). cbn [append]. eauto.
    + apply andb_prop in Hl. destruct Hl as [Ho Hl].
      destruct (O1 Ho _ _ _ H1) as [->|(t1 & ->)]; cbn [append];
        [exact (O2 Hl _ _ _ H2) | eauto].
  - intros Hl st c st' H. apply andb_prop in Hl. destruct Hl as [Ha Hb].
    apply in_mt_alt in H. destruct H as [H|H];
      [exact (L1 Ha _ _ _ H) | exact (L2 Hb _ _ _ H)].
  - intros Hl st c st' H. apply andb_prop in Hl. destruct Hl as [Ha Hb].
    apply in_mt_alt in H. destruct H as [H|H];
      [exact (O1 Ha _ _ _ H) | exact (O2 Hb _ _ _ H)].
  - intros Hl st c st' H. apply in_mt_opt in H.
    destruct H as [H|[-> _]]; [exact (O Hl _ _ _ H) | now left].
  - intros Hl st c st' H. apply in_mt_group in H.
    destruct H as (st1 & H & _). exact (L Hl _ _ _ H).
  - intros Hl st c st' H. apply in_mt_group in H.
    destruct H as (st1 & H & _). exact (O Hl _ _ _ H).
Qed.

(** What is left to read where [r] starts reads [a] first. *)
Lemma leads_rest a r p s k c st' :
  leads a r = true -> In (c, st') (mt r (MState p s k)) ->
  exists t, s = String a t.
Proof.
  intros Hl H. destruct (proj1 (leads_spec a r) Hl _ _ _ H) as (t & ->).
  apply mt_reads in H. destruct H as [E _]. cbn [rest append] in E. eauto.
Qed.

Ltac cut_after_subject2 E k Hk :=
  match type of E with
  | context [RCat (RBackref 1) ?K] => remember K as k eqn:Hk in E
  end.

Ltac prove_repeated x ses md t :=
  exists x, ses, md, t;
  split; [apply is_label_intro; assumption|];
  split; [first [ now left
                | right; eexists; split;
                  [apply is_label_intro; eassumption | reflexivity] ]|];
  split; [simpl; auto 10|];
  cbn [append]; rewrite ?append_assoc; cbn [append]; reflexivity.

Ltac finish_repeated md Hk :=
  rewrite ?append_nil_r in *;
  match goal with
  | H : In _ (mt ?K (MState _ ?t _)) |- _ =>
      let t' := fresh "t" in let E := fresh "E" in
      assert (E : exists u, t = String "_" u)
        by (eapply (@leads_rest "_"%char K);
            [rewrite Hk; reflexivity | exact H]);
      destruct E as (t' & ->);
      match goal with
      | |- subject_repeated
             (String "/" (String "s" (String "u" (String "b" (String "-"
                (?x ++ String "/" (String "s" (String "e" (String "s"
                   (String "-" (?y ++ String "/" _))))))))))) =>
          prove_repeated x ("ses-" ++ y ++ "/") md t'
      | |- subject_repeated
             (String "/" (String "s" (String "u" (String "b" (String "-"
                (?x ++ String "/" _)))))) =>
          prove_repeated x "" md t'
      end
  end.

Ltac repeated_of pt md :=
  let H := fresh "H" in let k := fresh "K" in let Hk := fresh "HK" in
  intros H; apply accepts_in in H; destruct H as ([? ?] & H);
  unfold pt, rx in H; cut_after_subject2 H k Hk; inv_mt H;
  finish_repeated md Hk.

Lemma anat_repeated path : accepts anat_re path = true -> subject_repeated path.
Proof. repeated_of anat_re "anat/". Qed.

Lemma dwi_repeated path : accepts dwi_re path = true -> subject_repeated path.
Proof. repeated_of dwi_re "dwi/". Qed.

Lemma field_map_repeated path :
  accepts field_map_re path = true -> subject_repeated path.
Proof. repeated_of field_map_re "fmap/". Qed.

Lemma func_repeated path : accepts func_re path = true -> subject_repeated path.
Proof. repeated_of func_re "func/". Qed.

Lemma beh_repeated path : accepts beh_re path = true -> subject_repeated path.
Proof. repeated_of beh_re "beh/". Qed.

Lemma cont_repeated path : accepts cont_re path = true -> subject_repeated path.
Proof.
  intros H; apply accepts_in in H; destruct H as ([? ?] & H).
  unfold cont_re, rx in H; cut_after_subject2 H K HK; inv_mt H;
    first [finish_repeated "func/" HK | finish_repeated "beh/" HK].
Qed.

Lemma subject_level_repeated path :
  subject_level_b path = true -> subject_repeated path.
Proof.
  unfold subject_level_b.
  destruct (first_match sessions_re path) as [[c st']|] eqn:E;
    [intros _ | discriminate].
  apply first_match_in in E. unfold sessions_re, rx in E.
  cut_after_subject2 E K HK. inv_mt E. finish_repeated "" HK.
Qed.

(** X16.  A path accepted by [is_subject_level], [is_anat], [is_dwi],
    [is_func], [is_behavioral], [is_cont] or [is_field_map] reads
    [/sub-<S>/[ses-<L>/][<modality>/]sub-<S>_<t>]: after the directories
    comes the subject token of the subject directory, closed by an
    underscore, so the label there is the label of the directory. *)
Theorem accepted_subject_token_repeated (ia : bool)
  (rule : string -> M bool) (path : string) :
  In rule separated_rules ->
  rule path (init ia) = (Ok true, init ia) ->
  subject_repeated path.
Proof.
  intros Hr Ht. unfold separated_rules in Hr. cbn [In] in Hr.
  destruct Hr as [<-|[<-|[<-|[<-|[<-|[<-|[<-|[]]]]]]]].
  - rewrite is_subject_level_run in Ht. apply ok_true_iff in Ht.
    now apply subject_level_repeated.
  - rewrite is_anat_run in Ht. apply ok_true_iff in Ht.
    now apply anat_repeated.
  - rewrite is_dwi_run in Ht. apply ok_true_iff in Ht.
    now apply dwi_repeated.
  - rewrite is_func_run in Ht. apply ok_true_iff in Ht.
    now apply func_repeated.
  - rewrite is_behavioral_run in Ht. apply ok_true_iff in Ht.
    now apply beh_repeated.
  - rewrite is_cont_run in Ht. apply ok_true_iff in Ht.
    now apply cont_repeated.
  - rewrite is_field_map_run in Ht. apply ok_true_iff in Ht.
    now apply field_map_repeated.
Qed.

Lemma accepted_subject_token_repeated_witness :
  subject_repeated "/sub-01/ses-pre/dwi/sub-01_ses-pre_dwi.bval".
Proof.
  apply (@accepted_subject_token_repeated true is_dwi
           "/sub-01/ses-pre/dwi/sub-01_ses-pre_dwi.bval").
  - cbn. auto.
  - vm_compute. reflexivity.
Defined.

(** X17.  A path accepted by a subject-scoped rule, [is_session_level]
    among them, reads [/sub-<S>/[ses-<L>/][<modality>/]sub-<S><tail>]: what
    follows the directories starts with the subject token of the subject
    directory; nothing is said of the text after it. *)
Theorem accepted_path_starts_with_subject_token (ia : bool)
  (rule : string -> M bool) (path : string) :
  In rule subject_scoped_rules ->
  rule path (init ia) = (Ok true, init ia) ->
  subject_shape path.
Proof.
  intros Hr Ht. unfold subject_scoped_rules in Hr. cbn [In] in Hr.
  destruct Hr as [<-|[<-|[<-|[<-|[<-|[<-|[<-|[<-|[]]]]]]]]].
  - rewrite is_session_level_run in Ht. apply ok_true_iff in Ht.
    now apply session_level_shape.
  - rewrite is_subject_level_run in Ht. apply ok_true_iff in Ht.
    now apply subject_level_shape.
  - rewrite is_anat_run in Ht. apply ok_true_iff in Ht.
    now apply anat_shape.
  - rewrite is_dwi_run in Ht. apply ok_true_iff in Ht.
    now apply dwi_shape.
  - rewrite is_func_run in Ht. apply ok_true_iff in Ht.
    now apply func_shape.
  - rewrite is_behavioral_run in Ht. apply ok_true_iff in Ht.
    now apply beh_shape.
  - rewrite is_cont_run in Ht. apply ok_true_iff in Ht.
    now apply cont_shape.
  - rewrite is_field_map_run in Ht. apply ok_true_iff in Ht.
    now apply field_map_shape.
Qed.

Lemma accepted_path_starts_with_subject_token_witness :
  subject_shape "/sub-01/sub-01T1w.json".
Proof.
  apply (@accepted_path_starts_with_subject_token true is_session_level
           "/sub-01/sub-01T1w.json").
  - cbn. auto.
  - vm_compute. reflexivity.
Defined.
